(** * Reserve-fund workbook: a shallow embedding of [workbook.py]

    The workbook projects a reserve fund over a horizon of years: an
    expense scheduler, a loan amortizer, a safety-net rule, the
    year-by-year simulator and the fee optimizer built on top of it.

    Numbers.  Year offsets, counts and indices are Python integers and
    are modelled by [Z].  Amounts of money and rates are Python numbers
    that become floats as soon as they are divided or inflated.  The
    workbook is embedded twice.  The first embedding computes amounts on
    the exact rationals [Q], compared with [==]; it carries the
    properties that do not depend on rounding: what is scheduled where,
    what is copied from year to year, which loans are counted, and what
    the formulas give when computed exactly.  The second one, module
    [Float64], computes on binary64 floats with the operations of the
    interpreter; it carries the properties of the values the program
    returns, and the inputs on which rounding separates the program from
    its exact formulas.

    Errors.  A Python exception ([IndexError], [ZeroDivisionError],
    [OverflowError]) is the value [None] of the [option] monad.

    Module-level constants of the workbook are gathered in the record
    [config]; [default_config] holds the values written in the source. *)

From Stdlib Require Import String Ascii.
From Stdlib Require Import ZArith QArith Qpower Qminmax Qabs.
From Stdlib Require Import List Bool Lia Lqa.
From Stdlib Require PrimFloat Uint63 FloatAxioms.
Import ListNotations.

Open Scope Z_scope.
Open Scope Q_scope.

(** ** The error monad *)

Definition bind {A B : Type} (m : option A) (k : A -> option B) : option B :=
  match m with
  | Some a => k a
  | None => None
  end.

Notation "x <- m ;; k" := (bind m (fun x => k))
  (at level 61, m at next level, right associativity).
Notation "' p <- m ;; k" := (bind m (fun x => let p := x in k))
  (at level 61, p pattern, m at next level, right associativity).

(** A [for] loop whose body may raise: the state is threaded through the
    elements of the list from left to right. *)
Fixpoint for_each {A S : Type} (body : S -> A -> option S) (l : list A) (s : S)
  : option S :=
  match l with
  | [] => Some s
  | a :: l' => s' <- body s a ;; for_each body l' s'
  end.

(** ** Python primitives *)

(** [range(n)] and [range(a, b)]. *)
Definition py_range (n : Z) : list Z :=
  map Z.of_nat (seq 0 (Z.to_nat n)).

Definition py_range2 (a b : Z) : list Z :=
  map (fun i => a + i)%Z (py_range (b - a)).

(** Resolution of a subscript [l[i]] on a list of length [len]: negative
    subscripts count from the end, anything else out of range raises. *)
Definition py_index (len : nat) (i : Z) : option nat :=
  if (0 <=? i)%Z then
    if (i <? Z.of_nat len)%Z then Some (Z.to_nat i) else None
  else
    if (- Z.of_nat len <=? i)%Z then Some (Z.to_nat (Z.of_nat len + i)) else None.

(** [l[n] = f(l[n])] for an index already resolved. *)
Fixpoint update_at {A : Type} (f : A -> A) (n : nat) (l : list A) : list A :=
  match l, n with
  | [], _ => []
  | x :: l', O => f x :: l'
  | x :: l', S n' => x :: update_at f n' l'
  end.

(** [l[-1]]. *)
Definition py_last {A : Type} (l : list A) : option A :=
  match rev l with
  | [] => None
  | x :: _ => Some x
  end.

Definition Qltb (x y : Q) : bool := negb (Qle_bool y x).

(** [max(a, b)] and [min(a, b)] keep the first argument on ties. *)
Definition py_max (a b : Q) : Q := if Qltb a b then b else a.

(** [x / y], computed exactly: a zero divisor raises. *)
Definition py_div (x y : Q) : option Q :=
  if Qeq_bool y 0 then None else Some (x / y).

(** [x ** n] for a number [x] and an integer [n], computed exactly:
    [0 ** n] raises for a negative [n].  The operator of the interpreter
    on doubles, which can also overflow, is [Float64.py_pow]. *)
Definition py_pow (x : Q) (n : Z) : option Q :=
  if Qeq_bool x 0 && (n <? 0)%Z then None else Some (x ^ n).

(** [float('inf')] next to the finite amounts. *)
Inductive amount : Type :=
| Fin (q : Q)
| Inf.

Definition amount_min (m : amount) (q : Q) : amount :=
  match m with
  | Inf => Fin q
  | Fin p => if Qltb q p then Fin q else Fin p
  end.

(** [m >= q] *)
Definition amount_geb (m : amount) (q : Q) : bool :=
  match m with
  | Inf => true
  | Fin p => Qle_bool q p
  end.

(** [str.upper()] on ASCII text. *)
Definition upper_ascii (c : ascii) : ascii :=
  let n := nat_of_ascii c in
  if (97 <=? n)%nat && (n <=? 122)%nat then ascii_of_nat (n - 32) else c.

Fixpoint upper (s : string) : string :=
  match s with
  | EmptyString => EmptyString
  | String c s' => String (upper_ascii c) (upper s')
  end.

(** ** Data model *)

(** An entry of [MODEL_ITEMS].  The keys ['type'] and ['is_sirs'] are read
    with [dict.get] and may be absent. *)
Record item : Type := {
  name : string;
  redundancy : Z;
  remaining_life : Z;
  cost : Q;
  is_sirs : option bool;
  type : option string
}.

(** An entry of [spending_data[y]]. *)
Record occurrence : Type := {
  o_name : string;
  o_cost : Q;
  o_year : Z;
  o_redundancy_at : Z;
  o_type : string;
  o_is_sirs : bool
}.

Record loan : Type := {
  principal : Q;
  start_year : Z;
  term : Z
}.

Record year_record : Type := {
  year : Z;
  opening_balance : Q;
  base_maintenance : Q;
  future_expenses_in_year : Q;
  reserve_contribution : Q;
  loan_repayments : Q;
  collections_without_safety_net : Q;
  provisional_end_balance : Q;
  safety_net_target : Q;
  safety_net_top_up : Q;
  total_maintenance_collected : Q;
  closing_balance : Q;
  large_expenses : Q;
  loan_portion : Q;
  cash_portion : Q;
  active_loans_count : Z
}.

(** The module-level inputs read by the simulation and the optimizer. *)
Record config : Type := {
  STARTING_BALANCE : Q;
  MONTHLY_FEES : Q;
  HOUSING : Z;
  FISCAL_YEAR : Z;
  PERIOD : Z;
  INFLATION_RATE : Q;
  LOAN_THRESHOLD_PERCENTAGE : Q;
  LOAN_RATE_PERCENTAGE : Q;
  LOAN_TERM_YEARS_MODEL : Z;
  SAFETY_NET_PERCENTAGE : Q;
  OPTIMIZE_MONTHLY_FEES : bool;
  MIN_RESERVE_BALANCE : Q;
  OPTIMIZATION_TOLERANCE : Q;
  MODEL_ITEMS : list item
}.

Definition default_items : list item :=
  [ {| name := "Roof Replacement"; redundancy := 20; remaining_life := 5;
       cost := 50000; is_sirs := Some false; type := Some "Large"%string |};
    {| name := "HVAC Maintenance"; redundancy := 3; remaining_life := 1;
       cost := 5000; is_sirs := Some false; type := Some "Small"%string |};
    {| name := "Elevator Modernization"; redundancy := 25; remaining_life := 15;
       cost := 75000; is_sirs := Some false; type := Some "Large"%string |};
    {| name := "Plumbing riser replacement"; redundancy := 1; remaining_life := 22;
       cost := 80000; is_sirs := Some false; type := Some "Large"%string |} ].

Definition default_config : config := {|
  STARTING_BALANCE := 0;
  MONTHLY_FEES := 120000 / 12;
  HOUSING := 1;
  FISCAL_YEAR := 2022;
  PERIOD := 30;
  INFLATION_RATE := 5;
  LOAN_THRESHOLD_PERCENTAGE := 70;
  LOAN_RATE_PERCENTAGE := 10;
  LOAN_TERM_YEARS_MODEL := 5;
  SAFETY_NET_PERCENTAGE := 10;
  OPTIMIZE_MONTHLY_FEES := true;
  MIN_RESERVE_BALANCE := 0;
  OPTIMIZATION_TOLERANCE := 1000;
  MODEL_ITEMS := default_items
|}.

(** ** Expense scheduler *)

Definition schedule : Type := (list Q * list (list occurrence))%type.

Definition make_occurrence (it : item) (occurrence_year i : Z) : occurrence := {|
  o_name := name it;
  o_cost := cost it;
  o_year := occurrence_year;
  o_redundancy_at := i;
  o_type := match type it with Some t => t | None => "Small"%string end;
  o_is_sirs := match is_sirs it with Some b => b | None => false end
|}.

(** Body of the inner loop [for i in range(redundancies)]. *)
Definition place_occurrence (period_years : Z) (it : item)
  (s : schedule) (i : Z) : option schedule :=
  let '(spendings, spending_data) := s in
  let occurrence_year := (remaining_life it + i * redundancy it)%Z in
  if (occurrence_year <? period_years)%Z then
    n <- py_index (length spendings) occurrence_year ;;
    let spendings' := update_at (fun x => x + cost it) n spendings in
    m <- py_index (length spending_data) occurrence_year ;;
    Some (spendings',
          update_at (fun l => l ++ [make_occurrence it occurrence_year i]) m
            spending_data)
  else Some s.

(** Body of the outer loop [for item in model_items]. *)
Definition place_item (period_years : Z) (s : schedule) (it : item)
  : option schedule :=
  if (remaining_life it >=? period_years)%Z then Some s
  else
    let redundancies :=
      if (redundancy it <=? 1)%Z then 1%Z
      else ((period_years - remaining_life it) / redundancy it + 1)%Z in
    for_each (place_occurrence period_years it) (py_range redundancies) s.

Definition calculate_yearly_expenses (model_items : list item)
  (period_years start_year : Z) : option schedule :=
  let spendings := repeat 0 (Z.to_nat period_years) in
  let spending_data := repeat [] (Z.to_nat period_years) in
  for_each (place_item period_years) model_items (spendings, spending_data).

(** ** Loan amortizer *)

Definition calculate_monthly_loan_payment
  (principal annual_interest_rate : Q) (loan_term_years : Z) : option Q :=
  if Qeq_bool principal 0 || Qeq_bool annual_interest_rate 0 then Some 0
  else
    let monthly_rate := annual_interest_rate / 100 / 12 in
    let number_of_payments := (loan_term_years * 12)%Z in
    growth <- py_pow (1 + monthly_rate) number_of_payments ;;
    let numerator := principal * monthly_rate * growth in
    let denominator := growth - 1 in
    py_div numerator denominator.

Definition get_loan_payments
  (principal annual_interest_rate : Q) (loan_term_years : Z) : option Q :=
  monthly_payment <-
    calculate_monthly_loan_payment principal annual_interest_rate loan_term_years ;;
  Some (monthly_payment * 12).

(** ** Safety net *)

Definition calculate_safety_net_top_up
  (safety_net_target provisional_end_balance : Q) : Q :=
  py_max 0 (safety_net_target - provisional_end_balance).

(** The condition [loan['start_year'] <= year < loan['start_year'] + loan['term']]. *)
Definition loan_active (year : Z) (l : loan) : bool :=
  (start_year l <=? year)%Z && (year <? start_year l + term l)%Z.

(** The running totals of the simulation loop. *)
Record sim_state : Type := {
  simulation_data : list year_record;
  min_balance : amount;
  total_deficits : Q;
  active_loans : list loan
}.

Section Workbook.

Variable cfg : config.

(** ** Expenses of one year, inflated *)

(** Body of [for item_data in items_this_year]; the accumulator is
    [(total_expenses, large_expenses, loan_portion, cash_portion)]. *)
Definition add_expense (year_index : Z) (acc : Q * Q * Q * Q)
  (item_data : occurrence) : Q * Q * Q * Q :=
  let '(total_expenses, large_expenses, loan_portion, cash_portion) := acc in
  let years_of_inflation := year_index in
  let inflated_cost :=
    o_cost item_data * (1 + INFLATION_RATE cfg / 100) ^ years_of_inflation in
  let total_expenses := total_expenses + inflated_cost in
  if String.eqb (upper (o_type item_data)) "LARGE" then
    let large_expenses := large_expenses + inflated_cost in
    let loan_amount := inflated_cost * (LOAN_THRESHOLD_PERCENTAGE cfg / 100) in
    let cash_amount := inflated_cost - loan_amount in
    (total_expenses, large_expenses, loan_portion + loan_amount,
     cash_portion + cash_amount)
  else
    (total_expenses, large_expenses, loan_portion, cash_portion + inflated_cost).

(** The schedule is computed once from the module constants and kept in a
    function attribute; as the constants never change, every call sees
    the value computed here. *)
Definition cached_expenses : option schedule :=
  calculate_yearly_expenses (MODEL_ITEMS cfg) (PERIOD cfg) (FISCAL_YEAR cfg).

Definition get_expenses_with_loan_details (year housing : Z)
  : option (Q * Q * Q * Q) :=
  let year_index := (year - FISCAL_YEAR cfg)%Z in
  '(spendings, spending_data) <- cached_expenses ;;
  if (0 <=? year_index)%Z && (year_index <? Z.of_nat (length spendings))%Z then
    items_this_year <- nth_error spending_data (Z.to_nat year_index) ;;
    Some (fold_left (add_expense year_index) items_this_year (0, 0, 0, 0))
  else Some (0, 0, 0, 0).

(** ** Reserve contribution and loan repayments *)

(** [future_expenses_by_year] is a dictionary from year to the pair
    [(large_expenses, total_expenses)]; it is traversed in insertion
    order, which the association list records. *)
Definition add_contribution (current_year : Z) (reserve_contribution : Q)
  (entry : Z * (Q * Q)) : Q :=
  let '(expense_year, (large_expenses, _)) := entry in
  if (expense_year >? current_year)%Z && Qltb 0 large_expenses then
    let years_until_expense := Z.max (expense_year - current_year) 1 in
    let annual_contribution :=
      (large_expenses * (LOAN_THRESHOLD_PERCENTAGE cfg / 100))
      / inject_Z years_until_expense in
    reserve_contribution + annual_contribution
  else reserve_contribution.

Definition calculate_reserve_contribution_for_future_expenses
  (future_expenses_by_year : list (Z * (Q * Q))) (current_year : Z) : Q :=
  fold_left (add_contribution current_year) future_expenses_by_year 0.

Definition add_loan_payment (year : Z) (total_payments : Q) (l : loan)
  : option Q :=
  let loan_start := start_year l in
  let loan_end := (loan_start + term l)%Z in
  if (loan_start <=? year)%Z && (year <? loan_end)%Z then
    annual_payment <-
      get_loan_payments (principal l) (LOAN_RATE_PERCENTAGE cfg) (term l) ;;
    Some (total_payments + annual_payment)
  else Some total_payments.

Definition calculate_loan_payments_for_year (active_loans : list loan)
  (year : Z) : option Q :=
  for_each (add_loan_payment year) active_loans 0.

Definition calculate_safety_net_target
  (base_maintenance future_expenses loan_repayments : Q) : Q :=
  let total_collections := base_maintenance + future_expenses + loan_repayments in
  total_collections * (SAFETY_NET_PERCENTAGE cfg / 100).

(** ** Year simulator *)

Definition simulation_years : list Z :=
  py_range2 (FISCAL_YEAR cfg) (FISCAL_YEAR cfg + PERIOD cfg).

(** First loop of [simulate_with_monthly_fees]: the dictionary of future
    expenses, one entry per simulated year. *)
Definition add_future_expenses (future_expenses_by_year : list (Z * (Q * Q)))
  (year : Z) : option (list (Z * (Q * Q))) :=
  '(total_exp, large_exp, _, _) <- get_expenses_with_loan_details year (HOUSING cfg) ;;
  Some (future_expenses_by_year ++ [(year, (large_exp, total_exp))]).

Definition precalculate_future_expenses : option (list (Z * (Q * Q))) :=
  for_each add_future_expenses simulation_years [].

(** Body of the main loop, one simulated year. *)
Definition simulate_year (effective_monthly_fees : Q)
  (future_expenses_by_year : list (Z * (Q * Q)))
  (s : sim_state) (year : Z) : option sim_state :=
  opening_balance <-
    (if (year =? FISCAL_YEAR cfg)%Z then Some (STARTING_BALANCE cfg)
     else r <- py_last (simulation_data s) ;; Some (closing_balance r)) ;;
  let years_from_start := (year - FISCAL_YEAR cfg)%Z in
  let base_maintenance :=
    effective_monthly_fees * inject_Z (HOUSING cfg) * 12
    * (1 + INFLATION_RATE cfg / 100) ^ years_from_start in
  '(total_expenses, large_expenses, loan_portion, cash_portion) <-
    get_expenses_with_loan_details year (HOUSING cfg) ;;
  let active_loans :=
    if Qltb 0 loan_portion then
      active_loans s ++ [ {| principal := loan_portion; start_year := year;
                             term := LOAN_TERM_YEARS_MODEL cfg |} ]
    else active_loans s in
  let reserve_contribution :=
    calculate_reserve_contribution_for_future_expenses future_expenses_by_year year in
  loan_repayments <- calculate_loan_payments_for_year active_loans year ;;
  let collections_without_safety_net :=
    base_maintenance + reserve_contribution + loan_repayments in
  let provisional_end_balance :=
    opening_balance + collections_without_safety_net - total_expenses
    - loan_repayments in
  let safety_net_target :=
    calculate_safety_net_target base_maintenance total_expenses loan_repayments in
  let safety_net_top_up :=
    calculate_safety_net_top_up safety_net_target provisional_end_balance in
  let total_maintenance_collected :=
    collections_without_safety_net + safety_net_top_up in
  let closing_balance :=
    opening_balance + total_maintenance_collected - total_expenses
    - loan_repayments in
  let min_balance := amount_min (min_balance s) closing_balance in
  let total_deficits :=
    if Qltb closing_balance (MIN_RESERVE_BALANCE cfg) then
      total_deficits s + Qabs (closing_balance - MIN_RESERVE_BALANCE cfg)
    else total_deficits s in
  Some {|
    simulation_data := simulation_data s ++ [ {|
      year := year;
      opening_balance := opening_balance;
      base_maintenance := base_maintenance;
      future_expenses_in_year := total_expenses;
      reserve_contribution := reserve_contribution;
      loan_repayments := loan_repayments;
      collections_without_safety_net := collections_without_safety_net;
      provisional_end_balance := provisional_end_balance;
      safety_net_target := safety_net_target;
      safety_net_top_up := safety_net_top_up;
      total_maintenance_collected := total_maintenance_collected;
      closing_balance := closing_balance;
      large_expenses := large_expenses;
      loan_portion := loan_portion;
      cash_portion := cash_portion;
      active_loans_count :=
        Z.of_nat (length (filter (loan_active year) active_loans))
    |} ];
    min_balance := min_balance;
    total_deficits := total_deficits;
    active_loans := active_loans
  |}.

Definition initial_state : sim_state := {|
  simulation_data := [];
  min_balance := Inf;
  total_deficits := 0;
  active_loans := []
|}.

(** The main loop run over a list of years. *)
Definition simulate_years (effective_monthly_fees : Q)
  (future_expenses_by_year : list (Z * (Q * Q))) (years : list Z)
  (s : sim_state) : option sim_state :=
  for_each (simulate_year effective_monthly_fees future_expenses_by_year) years s.

Definition simulate_with_monthly_fees (monthly_fees_override : option Q)
  : option (list year_record * amount * Q) :=
  let effective_monthly_fees :=
    match monthly_fees_override with
    | Some f => f
    | None => MONTHLY_FEES cfg
    end in
  future_expenses_by_year <- precalculate_future_expenses ;;
  s <- simulate_years effective_monthly_fees future_expenses_by_year
         simulation_years initial_state ;;
  Some (simulation_data s, min_balance s, total_deficits s).

(** ** Fee optimizer *)

(** The test [min_balance >= MIN_RESERVE_BALANCE and
    total_deficits <= OPTIMIZATION_TOLERANCE]. *)
Definition sufficient (min_balance : amount) (total_deficits : Q) : bool :=
  amount_geb min_balance (MIN_RESERVE_BALANCE cfg)
  && Qle_bool total_deficits (OPTIMIZATION_TOLERANCE cfg).

(** The [while] loop; [remaining] is [max_iterations - iteration].  The
    result is the final bracket and the number of iterations done. *)
Fixpoint binary_search (remaining : nat) (iteration : Z)
  (lower_bound upper_bound : Q) : option (Q * Q * Z) :=
  match remaining with
  | O => Some (lower_bound, upper_bound, iteration)
  | S remaining' =>
      if Qltb 1 (upper_bound - lower_bound) then
        let iteration := (iteration + 1)%Z in
        let mid_fees := (lower_bound + upper_bound) / 2 in
        '(_, min_balance, total_deficits) <- simulate_with_monthly_fees (Some mid_fees) ;;
        if sufficient min_balance total_deficits then
          binary_search remaining' iteration lower_bound mid_fees
        else
          binary_search remaining' iteration mid_fees upper_bound
      else Some (lower_bound, upper_bound, iteration)
  end.

Definition max_iterations : nat := 20.

Definition optimize_monthly_fees : option Q :=
  if negb (OPTIMIZE_MONTHLY_FEES cfg) then Some (MONTHLY_FEES cfg)
  else
    let lower_bound := MONTHLY_FEES cfg * 0.5 in
    let upper_bound := MONTHLY_FEES cfg * 3.0 in
    '(_, min_balance, total_deficits) <-
      simulate_with_monthly_fees (Some (MONTHLY_FEES cfg)) ;;
    if sufficient min_balance total_deficits then Some (MONTHLY_FEES cfg)
    else
      '(_, upper_bound, _) <-
        binary_search max_iterations 0 lower_bound upper_bound ;;
      let optimized_fees := upper_bound in
      (* the validation run, then the report, which prints
         [optimized_fees / MONTHLY_FEES] *)
      _ <- simulate_with_monthly_fees (Some optimized_fees) ;;
      _ <- py_div optimized_fees (MONTHLY_FEES cfg) ;;
      Some optimized_fees.

End Workbook.

(** ** Formulas of the design and example inputs *)

Definition Qsum (l : list Q) : Q := fold_right Qplus 0 l.

(** The reserve contribution as the design document words it: the sum,
    over the future years [y' > y] that have large expenses, of
    [(largeExpense(y') * loanThresholdPct/100) / max(y' - y, 1)]. *)
Definition reserve_contribution_formula (cfg : config)
  (future_expenses_by_year : list (Z * (Q * Q))) (y : Z) : Q :=
  Qsum
    (map (fun e => fst (snd e) * (LOAN_THRESHOLD_PERCENTAGE cfg / 100)
                   / inject_Z (Z.max (fst e - y) 1))
       (filter (fun e => (fst e >? y)%Z && Qltb 0 (fst (snd e)))
          future_expenses_by_year)).

(** The total of the annual payments of all the loans of a list. *)
Definition sum_annual_payments (cfg : config) (loans : list loan) : option Q :=
  for_each
    (fun total l =>
       annual_payment <-
         get_loan_payments (principal l) (LOAN_RATE_PERCENTAGE cfg) (term l) ;;
       Some (total + annual_payment))
    loans 0.

(** The equations that tie the fields of one year record together, as
    the loop body computes them. *)
Record year_record_ok (cfg : config) (fee : Q)
  (future_expenses_by_year : list (Z * (Q * Q))) (r : year_record) : Prop := {
  ok_base :
    base_maintenance r
    = fee * inject_Z (HOUSING cfg) * 12
      * (1 + INFLATION_RATE cfg / 100) ^ (year r - FISCAL_YEAR cfg);
  ok_expenses :
    get_expenses_with_loan_details cfg (year r) (HOUSING cfg)
    = Some (future_expenses_in_year r, large_expenses r, loan_portion r,
            cash_portion r);
  ok_reserve :
    reserve_contribution r
    = calculate_reserve_contribution_for_future_expenses cfg
        future_expenses_by_year (year r);
  ok_collections :
    collections_without_safety_net r
    = base_maintenance r + reserve_contribution r + loan_repayments r;
  ok_provisional :
    provisional_end_balance r
    = opening_balance r + collections_without_safety_net r
      - future_expenses_in_year r - loan_repayments r;
  ok_target :
    safety_net_target r
    = calculate_safety_net_target cfg (base_maintenance r)
        (future_expenses_in_year r) (loan_repayments r);
  ok_top_up :
    safety_net_top_up r
    = calculate_safety_net_top_up (safety_net_target r)
        (provisional_end_balance r);
  ok_collected :
    total_maintenance_collected r
    = collections_without_safety_net r + safety_net_top_up r;
  ok_closing :
    closing_balance r
    = opening_balance r + total_maintenance_collected r
      - future_expenses_in_year r - loan_repayments r
}.

(** The fee a run is made with. *)
Definition effective_fee (cfg : config) (monthly_fees_override : option Q) : Q :=
  match monthly_fees_override with
  | Some f => f
  | None => MONTHLY_FEES cfg
  end.

(** What holds of the record of index [j] in the state [s] of a run. *)
Record record_inv (cfg : config) (fee : Q) (fut : list (Z * (Q * Q)))
  (s : sim_state) (j : nat) (r : year_record) : Prop := {
  rec_year : year r = (FISCAL_YEAR cfg + Z.of_nat j)%Z;
  rec_ok : year_record_ok cfg fee fut r;
  rec_first : j = O -> opening_balance r = STARTING_BALANCE cfg;
  rec_next : forall r', nth_error (simulation_data s) (S j) = Some r' ->
             closing_balance r = opening_balance r';
  rec_count :
    active_loans_count r
    = Z.of_nat (length (filter (loan_active (year r)) (active_loans s)));
  rec_repayments :
    calculate_loan_payments_for_year cfg (active_loans s) (year r)
    = Some (loan_repayments r)
}.

(** The invariant of the main loop after [k] iterations. *)
Record run_inv (cfg : config) (fee : Q) (fut : list (Z * (Q * Q)))
  (k : nat) (s : sim_state) : Prop := {
  inv_length : length (simulation_data s) = k;
  inv_records : forall j r, nth_error (simulation_data s) j = Some r ->
                record_inv cfg fee fut s j r;
  inv_ledger : forall l, In l (active_loans s) ->
               (FISCAL_YEAR cfg <= start_year l < FISCAL_YEAR cfg + Z.of_nat k)%Z
               /\ 0 < principal l
               /\ term l = LOAN_TERM_YEARS_MODEL cfg
}.



(** The feasibility predicate of the optimizer at a fee. *)
Definition feasible (cfg : config) (fee : Q) : Prop :=
  exists data mb td,
    simulate_with_monthly_fees cfg (Some fee) = Some (data, mb, td)
    /\ sufficient cfg mb td = true.

(** The first catalog entry of the workbook. *)
Definition roof : item :=
  {| name := "Roof Replacement"; redundancy := 20; remaining_life := 5;
     cost := 50000; is_sirs := Some false; type := Some "Large"%string |}.

(** An item repeating every 5 years from offset 0, on a 30-year window:
    [30 / 5 + 1 = 7], but only the six offsets 0, 5, ..., 25 are below 30. *)
Definition every_five_years : item :=
  {| name := "Repainting"; redundancy := 5; remaining_life := 0;
     cost := 1000; is_sirs := Some false; type := Some "Small"%string |}.

(** A two-year plan with one large expense in its second year, financed
    by a one-year loan; the other inputs are those of the workbook. *)
Definition short_plan : config := {|
  STARTING_BALANCE := 0;
  MONTHLY_FEES := 120000 / 12;
  HOUSING := 1;
  FISCAL_YEAR := 2022;
  PERIOD := 2;
  INFLATION_RATE := 5;
  LOAN_THRESHOLD_PERCENTAGE := 70;
  LOAN_RATE_PERCENTAGE := 10;
  LOAN_TERM_YEARS_MODEL := 1;
  SAFETY_NET_PERCENTAGE := 10;
  OPTIMIZE_MONTHLY_FEES := true;
  MIN_RESERVE_BALANCE := 0;
  OPTIMIZATION_TOLERANCE := 1000;
  MODEL_ITEMS :=
    [ {| name := "Roof Replacement"; redundancy := 20; remaining_life := 1;
         cost := 50000; is_sirs := Some false; type := Some "Large"%string |} ]
|}.

(** The run of [short_plan] at its configured fee, evaluated. *)
Definition short_plan_run : option (list year_record * amount * Q) :=
  Eval vm_compute in simulate_with_monthly_fees short_plan None.

Definition short_plan_data : list year_record :=
  match short_plan_run with
  | Some (data, _, _) => data
  | None => []
  end.

Definition short_plan_min : amount :=
  match short_plan_run with
  | Some (_, mb, _) => mb
  | None => Inf
  end.

Definition short_plan_deficits : Q :=
  match short_plan_run with
  | Some (_, _, td) => td
  | None => 0
  end.

(** A one-year plan without expenses, at a monthly fee of 2 and with a
    reserve floor of 1000: a year at the top of the bracket, fee 6,
    collects 72. *)
Definition unreachable_floor : config := {|
  STARTING_BALANCE := 0;
  MONTHLY_FEES := 2;
  HOUSING := 1;
  FISCAL_YEAR := 2022;
  PERIOD := 1;
  INFLATION_RATE := 5;
  LOAN_THRESHOLD_PERCENTAGE := 70;
  LOAN_RATE_PERCENTAGE := 10;
  LOAN_TERM_YEARS_MODEL := 5;
  SAFETY_NET_PERCENTAGE := 10;
  OPTIMIZE_MONTHLY_FEES := true;
  MIN_RESERVE_BALANCE := 1000;
  OPTIMIZATION_TOLERANCE := 1000;
  MODEL_ITEMS := []
|}.

(** ** Auxiliary notions for the further properties *)

(** The two arrays of a schedule agree: the total of a year is the sum of
    the costs of the occurrences of that year. *)
Definition schedule_consistent (s : schedule) : Prop :=
  length (fst s) = length (snd s)
  /\ forall y, nth y (fst s) 0 == Qsum (map o_cost (nth y (snd s) [])).

(** The loan a year record gives rise to, if any. *)
Definition loan_of_record (cfg : config) (r : year_record) : list loan :=
  if Qltb 0 (loan_portion r)
  then [ {| principal := loan_portion r; start_year := year r;
            term := LOAN_TERM_YEARS_MODEL cfg |} ]
  else [].

(** The amount by which a closing balance falls short of the floor. *)
Definition shortfall (cfg : config) (r : year_record) : Q :=
  Qmax 0 (MIN_RESERVE_BALANCE cfg - closing_balance r).

(** [m] is the least closing balance of [data] ([inf] when there is none). *)
Definition least_closing (m : amount) (data : list year_record) : Prop :=
  match m with
  | Inf => data = []
  | Fin q => (exists r, In r data /\ q = closing_balance r)
             /\ forall r, In r data -> q <= closing_balance r
  end.

(** The fields of a year record that do not involve the fee. *)
Definition same_schedule_fields (r r' : year_record) : Prop :=
  year r = year r'
  /\ future_expenses_in_year r = future_expenses_in_year r'
  /\ large_expenses r = large_expenses r'
  /\ loan_portion r = loan_portion r'
  /\ cash_portion r = cash_portion r'
  /\ reserve_contribution r = reserve_contribution r'
  /\ loan_repayments r = loan_repayments r'
  /\ active_loans_count r = active_loans_count r'.

(** A catalog entry that carries no ['type'] key. *)
Definition untyped_item : item :=
  {| name := "Gutters"; redundancy := 1; remaining_life := 0;
     cost := 1200; is_sirs := None; type := None |}.

(** An item whose first occurrence lies more than a window before the
    start. *)
Definition early_item : item :=
  {| name := "Boiler"; redundancy := 10; remaining_life := -40;
     cost := 9000; is_sirs := Some false; type := Some "Large"%string |}.

(** A two-year plan whose catalog holds [early_item], and the same plan
    with a horizon of 0. *)
Definition early_plan : config := {|
  STARTING_BALANCE := 0;
  MONTHLY_FEES := 100;
  HOUSING := 1;
  FISCAL_YEAR := 2022;
  PERIOD := 2;
  INFLATION_RATE := 5;
  LOAN_THRESHOLD_PERCENTAGE := 70;
  LOAN_RATE_PERCENTAGE := 10;
  LOAN_TERM_YEARS_MODEL := 5;
  SAFETY_NET_PERCENTAGE := 10;
  OPTIMIZE_MONTHLY_FEES := true;
  MIN_RESERVE_BALANCE := 0;
  OPTIMIZATION_TOLERANCE := 1000;
  MODEL_ITEMS := [early_item]
|}.

Definition no_horizon : config := {|
  STARTING_BALANCE := 0;
  MONTHLY_FEES := 100;
  HOUSING := 1;
  FISCAL_YEAR := 2022;
  PERIOD := 0;
  INFLATION_RATE := 5;
  LOAN_THRESHOLD_PERCENTAGE := 70;
  LOAN_RATE_PERCENTAGE := 10;
  LOAN_TERM_YEARS_MODEL := 5;
  SAFETY_NET_PERCENTAGE := 10;
  OPTIMIZE_MONTHLY_FEES := true;
  MIN_RESERVE_BALANCE := 0;
  OPTIMIZATION_TOLERANCE := 1000;
  MODEL_ITEMS := [early_item]
|}.

(** [unreachable_floor] at a baseline fee of 0. *)
Definition zero_fee_floor : config := {|
  STARTING_BALANCE := 0;
  MONTHLY_FEES := 0;
  HOUSING := 1;
  FISCAL_YEAR := 2022;
  PERIOD := 1;
  INFLATION_RATE := 5;
  LOAN_THRESHOLD_PERCENTAGE := 70;
  LOAN_RATE_PERCENTAGE := 10;
  LOAN_TERM_YEARS_MODEL := 5;
  SAFETY_NET_PERCENTAGE := 10;
  OPTIMIZE_MONTHLY_FEES := true;
  MIN_RESERVE_BALANCE := 1000;
  OPTIMIZATION_TOLERANCE := 1000;
  MODEL_ITEMS := []
|}.

(** * The workbook on IEEE doubles

    The same functions as above, with every amount and rate a binary64
    float and every operation rounded as the interpreter rounds it.
    Integer amounts of the source are read as the doubles they convert
    to (exact below [2^53]).  The power operator decides the exponent 0,
    the bases 0 and 1 and the non-finite bases itself and hands every
    other case to the C library, which is a parameter here
    ([libm_pow]). *)

Module Float64.

Import PrimFloat.

Local Open Scope float_scope.

(** Conversion of an integer operand, exact for [|z| < 2^53]. *)
Definition float_of_Z (z : Z) : float :=
  if (z <? 0)%Z then - of_uint63 (Uint63.of_Z (- z))
  else of_uint63 (Uint63.of_Z z).

(** [max(a, b)] and [min(a, b)] keep the first argument unless the
    second compares strictly beyond it. *)
Definition py_max (a b : float) : float := if a <? b then b else a.
Definition py_min (a b : float) : float := if b <? a then b else a.

(** [x / y]: a zero divisor raises. *)
Definition py_div (x y : float) : option float :=
  if y =? 0 then None else Some (x / y).

Record item : Type := {
  name : string;
  redundancy : Z;
  remaining_life : Z;
  cost : float;
  is_sirs : option bool;
  type : option string
}.

Record occurrence : Type := {
  o_name : string;
  o_cost : float;
  o_year : Z;
  o_redundancy_at : Z;
  o_type : string;
  o_is_sirs : bool
}.

Record loan : Type := {
  principal : float;
  start_year : Z;
  term : Z
}.

Record year_record : Type := {
  year : Z;
  opening_balance : float;
  base_maintenance : float;
  future_expenses_in_year : float;
  reserve_contribution : float;
  loan_repayments : float;
  collections_without_safety_net : float;
  provisional_end_balance : float;
  safety_net_target : float;
  safety_net_top_up : float;
  total_maintenance_collected : float;
  closing_balance : float;
  large_expenses : float;
  loan_portion : float;
  cash_portion : float;
  active_loans_count : Z
}.

Record config : Type := {
  STARTING_BALANCE : float;
  MONTHLY_FEES : float;
  HOUSING : Z;
  FISCAL_YEAR : Z;
  PERIOD : Z;
  INFLATION_RATE : float;
  LOAN_THRESHOLD_PERCENTAGE : float;
  LOAN_RATE_PERCENTAGE : float;
  LOAN_TERM_YEARS_MODEL : Z;
  SAFETY_NET_PERCENTAGE : float;
  OPTIMIZE_MONTHLY_FEES : bool;
  MIN_RESERVE_BALANCE : float;
  OPTIMIZATION_TOLERANCE : float;
  MODEL_ITEMS : list item
}.

Definition schedule : Type := (list float * list (list occurrence))%type.

Definition make_occurrence (it : item) (occurrence_year i : Z) : occurrence := {|
  o_name := name it;
  o_cost := cost it;
  o_year := occurrence_year;
  o_redundancy_at := i;
  o_type := match type it with Some t => t | None => "Small"%string end;
  o_is_sirs := match is_sirs it with Some b => b | None => false end
|}.

Definition place_occurrence (period_years : Z) (it : item)
  (s : schedule) (i : Z) : option schedule :=
  let '(spendings, spending_data) := s in
  let occurrence_year := (remaining_life it + i * redundancy it)%Z in
  if (occurrence_year <? period_years)%Z then
    n <- py_index (length spendings) occurrence_year ;;
    let spendings' := update_at (fun x => x + cost it) n spendings in
    m <- py_index (length spending_data) occurrence_year ;;
    Some (spendings',
          update_at (fun l => l ++ [make_occurrence it occurrence_year i]) m
            spending_data)
  else Some s.

Definition place_item (period_years : Z) (s : schedule) (it : item)
  : option schedule :=
  if (remaining_life it >=? period_years)%Z then Some s
  else
    let redundancies :=
      if (redundancy it <=? 1)%Z then 1%Z
      else ((period_years - remaining_life it) / redundancy it + 1)%Z in
    for_each (place_occurrence period_years it) (py_range redundancies) s.

Definition calculate_yearly_expenses (model_items : list item)
  (period_years start_year : Z) : option schedule :=
  let spendings := repeat 0 (Z.to_nat period_years) in
  let spending_data := repeat [] (Z.to_nat period_years) in
  for_each (place_item period_years) model_items (spendings, spending_data).

Definition calculate_safety_net_top_up
  (safety_net_target provisional_end_balance : float) : float :=
  py_max 0 (safety_net_target - provisional_end_balance).

Definition loan_active (year : Z) (l : loan) : bool :=
  (start_year l <=? year)%Z && (year <? start_year l + term l)%Z.

Record sim_state : Type := {
  simulation_data : list year_record;
  min_balance : float;
  total_deficits : float;
  active_loans : list loan
}.

Section Workbook.

(** The [pow] of the C library, reached for a finite base other than 0
    and 1 and a nonzero exponent. *)
Variable libm_pow : float -> float -> float.

(** [x ** n] for a float [x] and an integer [n]: the special cases of
    the interpreter, then the library; a result that overflows raises. *)
Definition py_pow (x : float) (n : Z) : option float :=
  if (n =? 0)%Z then Some 1
  else if is_nan x then Some x
  else if is_infinity x then
    Some (if (0 <? n)%Z then (if Z.odd n then x else abs x)
          else (if Z.odd n && (x <? 0) then - 0 else 0))
  else if x =? 0 then
    if (n <? 0)%Z then None else Some (if Z.odd n then x else 0)
  else
    let negate_result := (x <? 0) && Z.odd n in
    let v := abs x in
    if v =? 1 then Some (if negate_result then - 1 else 1)
    else
      let r := libm_pow v (float_of_Z n) in
      if is_infinity r then None
      else Some (if negate_result then - r else r).

Definition calculate_monthly_loan_payment
  (principal annual_interest_rate : float) (loan_term_years : Z) : option float :=
  if (principal =? 0) || (annual_interest_rate =? 0) then Some 0
  else
    let monthly_rate := annual_interest_rate / 100 / 12 in
    let number_of_payments := (loan_term_years * 12)%Z in
    growth <- py_pow (1 + monthly_rate) number_of_payments ;;
    let numerator := principal * monthly_rate * growth in
    let denominator := growth - 1 in
    py_div numerator denominator.

Definition get_loan_payments
  (principal annual_interest_rate : float) (loan_term_years : Z) : option float :=
  monthly_payment <-
    calculate_monthly_loan_payment principal annual_interest_rate loan_term_years ;;
  Some (monthly_payment * 12).

Variable cfg : config.

Definition add_expense (year_index : Z) (acc : float * float * float * float)
  (item_data : occurrence) : option (float * float * float * float) :=
  let '(total_expenses, large_expenses, loan_portion, cash_portion) := acc in
  let years_of_inflation := year_index in
  factor <- py_pow (1 + INFLATION_RATE cfg / 100) years_of_inflation ;;
  let inflated_cost := o_cost item_data * factor in
  let total_expenses := total_expenses + inflated_cost in
  if String.eqb (upper (o_type item_data)) "LARGE" then
    let large_expenses := large_expenses + inflated_cost in
    let loan_amount := inflated_cost * (LOAN_THRESHOLD_PERCENTAGE cfg / 100) in
    let cash_amount := inflated_cost - loan_amount in
    Some (total_expenses, large_expenses, loan_portion + loan_amount,
          cash_portion + cash_amount)
  else
    Some (total_expenses, large_expenses, loan_portion,
          cash_portion + inflated_cost).

Definition cached_expenses : option schedule :=
  calculate_yearly_expenses (MODEL_ITEMS cfg) (PERIOD cfg) (FISCAL_YEAR cfg).

Definition get_expenses_with_loan_details (year housing : Z)
  : option (float * float * float * float) :=
  let year_index := (year - FISCAL_YEAR cfg)%Z in
  '(spendings, spending_data) <- cached_expenses ;;
  if (0 <=? year_index)%Z && (year_index <? Z.of_nat (length spendings))%Z then
    items_this_year <- nth_error spending_data (Z.to_nat year_index) ;;
    for_each (add_expense year_index) items_this_year (0, 0, 0, 0)
  else Some (0, 0, 0, 0).

Definition add_contribution (current_year : Z) (reserve_contribution : float)
  (entry : Z * (float * float)) : float :=
  let '(expense_year, (large_expenses, _)) := entry in
  if (expense_year >? current_year)%Z && (0 <? large_expenses) then
    let years_until_expense := Z.max (expense_year - current_year) 1 in
    let annual_contribution :=
      (large_expenses * (LOAN_THRESHOLD_PERCENTAGE cfg / 100))
      / float_of_Z years_until_expense in
    reserve_contribution + annual_contribution
  else reserve_contribution.

Definition calculate_reserve_contribution_for_future_expenses
  (future_expenses_by_year : list (Z * (float * float))) (current_year : Z)
  : float :=
  fold_left (add_contribution current_year) future_expenses_by_year 0.

Definition add_loan_payment (year : Z) (total_payments : float) (l : loan)
  : option float :=
  let loan_start := start_year l in
  let loan_end := (loan_start + term l)%Z in
  if (loan_start <=? year)%Z && (year <? loan_end)%Z then
    annual_payment <-
      get_loan_payments (principal l) (LOAN_RATE_PERCENTAGE cfg) (term l) ;;
    Some (total_payments + annual_payment)
  else Some total_payments.

Definition calculate_loan_payments_for_year (active_loans : list loan)
  (year : Z) : option float :=
  for_each (add_loan_payment year) active_loans 0.

Definition calculate_safety_net_target
  (base_maintenance future_expenses loan_repayments : float) : float :=
  let total_collections := base_maintenance + future_expenses + loan_repayments in
  total_collections * (SAFETY_NET_PERCENTAGE cfg / 100).

Definition simulation_years : list Z :=
  py_range2 (FISCAL_YEAR cfg) (FISCAL_YEAR cfg + PERIOD cfg).

Definition add_future_expenses
  (future_expenses_by_year : list (Z * (float * float))) (year : Z)
  : option (list (Z * (float * float))) :=
  '(total_exp, large_exp, _, _) <- get_expenses_with_loan_details year (HOUSING cfg) ;;
  Some (future_expenses_by_year ++ [(year, (large_exp, total_exp))]).

Definition precalculate_future_expenses : option (list (Z * (float * float))) :=
  for_each add_future_expenses simulation_years [].

Definition simulate_year (effective_monthly_fees : float)
  (future_expenses_by_year : list (Z * (float * float)))
  (s : sim_state) (year : Z) : option sim_state :=
  opening_balance <-
    (if (year =? FISCAL_YEAR cfg)%Z then Some (STARTING_BALANCE cfg)
     else r <- py_last (simulation_data s) ;; Some (closing_balance r)) ;;
  let years_from_start := (year - FISCAL_YEAR cfg)%Z in
  factor <- py_pow (1 + INFLATION_RATE cfg / 100) years_from_start ;;
  let base_maintenance :=
    effective_monthly_fees * float_of_Z (HOUSING cfg) * 12 * factor in
  '(total_expenses, large_expenses, loan_portion, cash_portion) <-
    get_expenses_with_loan_details year (HOUSING cfg) ;;
  let active_loans :=
    if 0 <? loan_portion then
      active_loans s ++ [ {| principal := loan_portion; start_year := year;
                             term := LOAN_TERM_YEARS_MODEL cfg |} ]
    else active_loans s in
  let reserve_contribution :=
    calculate_reserve_contribution_for_future_expenses future_expenses_by_year year in
  loan_repayments <- calculate_loan_payments_for_year active_loans year ;;
  let collections_without_safety_net :=
    base_maintenance + reserve_contribution + loan_repayments in
  let provisional_end_balance :=
    opening_balance + collections_without_safety_net - total_expenses
    - loan_repayments in
  let safety_net_target :=
    calculate_safety_net_target base_maintenance total_expenses loan_repayments in
  let safety_net_top_up :=
    calculate_safety_net_top_up safety_net_target provisional_end_balance in
  let total_maintenance_collected :=
    collections_without_safety_net + safety_net_top_up in
  let closing_balance :=
    opening_balance + total_maintenance_collected - total_expenses
    - loan_repayments in
  let min_balance := py_min (min_balance s) closing_balance in
  let total_deficits :=
    if closing_balance <? MIN_RESERVE_BALANCE cfg then
      total_deficits s + abs (closing_balance - MIN_RESERVE_BALANCE cfg)
    else total_deficits s in
  Some {|
    simulation_data := simulation_data s ++ [ {|
      year := year;
      opening_balance := opening_balance;
      base_maintenance := base_maintenance;
      future_expenses_in_year := total_expenses;
      reserve_contribution := reserve_contribution;
      loan_repayments := loan_repayments;
      collections_without_safety_net := collections_without_safety_net;
      provisional_end_balance := provisional_end_balance;
      safety_net_target := safety_net_target;
      safety_net_top_up := safety_net_top_up;
      total_maintenance_collected := total_maintenance_collected;
      closing_balance := closing_balance;
      large_expenses := large_expenses;
      loan_portion := loan_portion;
      cash_portion := cash_portion;
      active_loans_count :=
        Z.of_nat (length (filter (loan_active year) active_loans))
    |} ];
    min_balance := min_balance;
    total_deficits := total_deficits;
    active_loans := active_loans
  |}.

Definition initial_state : sim_state := {|
  simulation_data := [];
  min_balance := infinity;
  total_deficits := 0;
  active_loans := []
|}.

Definition simulate_with_monthly_fees (monthly_fees_override : option float)
  : option (list year_record * float * float) :=
  let effective_monthly_fees :=
    match monthly_fees_override with
    | Some f => f
    | None => MONTHLY_FEES cfg
    end in
  future_expenses_by_year <- precalculate_future_expenses ;;
  s <- for_each (simulate_year effective_monthly_fees future_expenses_by_year)
         simulation_years initial_state ;;
  Some (simulation_data s, min_balance s, total_deficits s).

Definition sufficient (min_balance total_deficits : float) : bool :=
  (MIN_RESERVE_BALANCE cfg <=? min_balance)
  && (total_deficits <=? OPTIMIZATION_TOLERANCE cfg).

Fixpoint binary_search (remaining : nat) (iteration : Z)
  (lower_bound upper_bound : float) : option (float * float * Z) :=
  match remaining with
  | O => Some (lower_bound, upper_bound, iteration)
  | S remaining' =>
      if 1 <? upper_bound - lower_bound then
        let iteration := (iteration + 1)%Z in
        let mid_fees := (lower_bound + upper_bound) / 2 in
        '(_, min_balance, total_deficits) <- simulate_with_monthly_fees (Some mid_fees) ;;
        if sufficient min_balance total_deficits then
          binary_search remaining' iteration lower_bound mid_fees
        else
          binary_search remaining' iteration mid_fees upper_bound
      else Some (lower_bound, upper_bound, iteration)
  end.

Definition optimize_monthly_fees : option float :=
  if negb (OPTIMIZE_MONTHLY_FEES cfg) then Some (MONTHLY_FEES cfg)
  else
    let lower_bound := MONTHLY_FEES cfg * 0.5 in
    let upper_bound := MONTHLY_FEES cfg * 3 in
    '(_, min_balance, total_deficits) <-
      simulate_with_monthly_fees (Some (MONTHLY_FEES cfg)) ;;
    if sufficient min_balance total_deficits then Some (MONTHLY_FEES cfg)
    else
      '(_, upper_bound, _) <- binary_search 20 0 lower_bound upper_bound ;;
      let optimized_fees := upper_bound in
      _ <- simulate_with_monthly_fees (Some optimized_fees) ;;
      _ <- py_div optimized_fees (MONTHLY_FEES cfg) ;;
      Some optimized_fees.

(** The feasibility predicate at a fee: the run at that fee returns and
    its summary passes the test of the optimizer. *)
Definition feasible (fee : float) : Prop :=
  exists data min_balance total_deficits,
    simulate_with_monthly_fees (Some fee) = Some (data, min_balance, total_deficits)
    /\ sufficient min_balance total_deficits = true.

(** A fee that was simulated and failed the test. *)
Definition rejected (fee : float) : Prop :=
  exists data min_balance total_deficits,
    simulate_with_monthly_fees (Some fee) = Some (data, min_balance, total_deficits)
    /\ sufficient min_balance total_deficits = false.

End Workbook.

(** The summary of a run, read off its records: the least closing
    balance, starting from [inf], and the total of the shortfalls below
    the floor, both accumulated in the order of the years. *)
Definition least_closing (data : list year_record) : float :=
  fold_left py_min (map closing_balance data) infinity.

Definition shortfall (floor : float) (data : list year_record) : float :=
  fold_left
    (fun total closing =>
       if closing <? floor then total + abs (closing - floor) else total)
    (map closing_balance data) 0.

(** A stand-in for the library in runs that never reach it: with a
    horizon of one year and no loan every exponent is 0. *)
Definition libm_unreached : float -> float -> float := fun _ _ => nan.

(** One year, one small expense of [cost] in that year, no starting
    balance; the rates are those of the workbook unless given. *)
Definition one_year (fee cost safety_net floor : float) : config := {|
  STARTING_BALANCE := 0;
  MONTHLY_FEES := fee;
  HOUSING := 1;
  FISCAL_YEAR := 2022;
  PERIOD := 1;
  INFLATION_RATE := 5;
  LOAN_THRESHOLD_PERCENTAGE := 70;
  LOAN_RATE_PERCENTAGE := 10;
  LOAN_TERM_YEARS_MODEL := 5;
  SAFETY_NET_PERCENTAGE := safety_net;
  OPTIMIZE_MONTHLY_FEES := true;
  MIN_RESERVE_BALANCE := floor;
  OPTIMIZATION_TOLERANCE := 1000;
  MODEL_ITEMS :=
    [ {| name := "Repairs"; redundancy := 1; remaining_life := 0;
         cost := cost; is_sirs := Some false; type := Some "Small"%string |} ]
|}.

End Float64.

(** * Properties *)

(** ** Generic facts about the primitives *)

Lemma bind_Some {A B : Type} (m : option A) (k : A -> option B) (b : B) :
  bind m k = Some b -> exists a, m = Some a /\ k a = Some b.
Proof.
  destruct m as [a|]; simpl; intros H; [exists a; auto | discriminate].
Qed.

Lemma for_each_app {A S : Type} (body : S -> A -> option S) (l1 l2 : list A) (s : S) :
  for_each body (l1 ++ l2) s = (s' <- for_each body l1 s ;; for_each body l2 s').
Proof.
  revert s; induction l1 as [|a l1 IH]; intros s; simpl; [reflexivity|].
  destruct (body s a); simpl; auto.
Qed.

Lemma for_each_invariant {A St : Type} (I : St -> Prop)
  (body : St -> A -> option St) (l : list A) (s s' : St) :
  (forall s a s1, In a l -> I s -> body s a = Some s1 -> I s1) ->
  I s -> for_each body l s = Some s' -> I s'.
Proof.
  revert s; induction l as [|a l IH]; intros s Hstep Hs Hrun.
  - injection Hrun as <-. exact Hs.
  - cbn [for_each] in Hrun. apply bind_Some in Hrun as (s1 & Hs1 & Hrun).
    apply (IH s1); [| |exact Hrun].
    + intros s2 b s3 Hb. apply Hstep. now right.
    + apply (Hstep s a); [now left | exact Hs | exact Hs1].
Qed.

Lemma for_each_total {A St : Type} (I : St -> Prop)
  (body : St -> A -> option St) (l : list A) (s : St) :
  (forall s a, In a l -> I s -> exists s1, body s a = Some s1 /\ I s1) ->
  I s -> exists s', for_each body l s = Some s' /\ I s'.
Proof.
  revert s; induction l as [|a l IH]; intros s Hstep Hs.
  - exists s. auto.
  - destruct (Hstep s a) as (s1 & Hs1 & HI); [now left | exact Hs |].
    destruct (IH s1) as (s' & Hrun & HI'); [|exact HI|].
    + intros s2 b Hb. apply Hstep. now right.
    + exists s'. split; [|exact HI']. cbn [for_each]. rewrite Hs1. exact Hrun.
Qed.

Lemma Qltb_lt (x y : Q) : Qltb x y = true <-> x < y.
Proof.
  unfold Qltb. rewrite negb_true_iff.
  destruct (Qle_bool y x) eqn:E.
  - apply Qle_bool_iff in E. split; [discriminate | intros H; lra].
  - split; [intros _ | reflexivity].
    apply Qnot_le_lt. intros H. apply Qle_bool_iff in H. congruence.
Qed.

Lemma Qltb_ge (x y : Q) : Qltb x y = false <-> y <= x.
Proof.
  unfold Qltb. rewrite negb_false_iff. apply Qle_bool_iff.
Qed.

Lemma py_range_S (n : nat) :
  py_range (Z.of_nat (S n)) = py_range (Z.of_nat n) ++ [Z.of_nat n].
Proof.
  unfold py_range. rewrite !Nat2Z.id, seq_S, map_app. reflexivity.
Qed.

Lemma in_py_range (n i : Z) : In i (py_range n) <-> (0 <= i < n)%Z.
Proof.
  unfold py_range. rewrite in_map_iff. split.
  - intros (k & <- & Hk). apply in_seq in Hk. lia.
  - intros Hi. exists (Z.to_nat i). split; [lia | apply in_seq; lia].
Qed.

Lemma py_index_in_range (len : nat) (i : Z) :
  (0 <= i < Z.of_nat len)%Z -> py_index len i = Some (Z.to_nat i).
Proof.
  intros Hi. unfold py_index.
  destruct (Z.leb_spec 0 i); [|lia].
  destruct (Z.ltb_spec i (Z.of_nat len)); [reflexivity | lia].
Qed.

Lemma nth_error_lt {A : Type} (l : list A) (n : nat) (x : A) :
  nth_error l n = Some x -> (n < length l)%nat.
Proof. intros H. apply nth_error_Some. congruence. Qed.

Lemma update_at_length {A : Type} (f : A -> A) (n : nat) (l : list A) :
  length (update_at f n l) = length l.
Proof.
  revert n; induction l as [|x l IH]; intros [|n]; simpl; auto.
Qed.

Lemma nth_update_at_same {A : Type} (f : A -> A) (n : nat) (l : list A) (d : A) :
  (n < length l)%nat -> nth n (update_at f n l) d = f (nth n l d).
Proof.
  revert n; induction l as [|x l IH]; intros [|n]; simpl; intros Hn;
    try lia; auto with arith.
Qed.

Lemma nth_update_at_other {A : Type} (f : A -> A) (n m : nat) (l : list A) (d : A) :
  n <> m -> nth m (update_at f n l) d = nth m l d.
Proof.
  revert n m; induction l as [|x l IH]; intros [|n] [|m]; simpl; intros Hn;
    try congruence; auto.
Qed.

Lemma concat_update_at_length {A : Type} (a : A) (n : nat) (l : list (list A)) :
  (n < length l)%nat ->
  length (concat (update_at (fun x => x ++ [a]) n l))
  = S (length (concat l)).
Proof.
  revert n; induction l as [|x l IH]; intros [|n]; simpl; intros Hn; try lia.
  - rewrite !length_app. simpl. lia.
  - rewrite !length_app, IH by lia. lia.
Qed.

(** ** The scheduler *)

Section Scheduler.

Variable period_years : Z.
Variable it : item.

Lemma place_occurrence_in_window (sp : list Q) (sd : list (list occurrence)) (i : Z) :
  length sp = Z.to_nat period_years ->
  length sd = Z.to_nat period_years ->
  (0 <= remaining_life it + i * redundancy it)%Z ->
  place_occurrence period_years it (sp, sd) i
  = Some (if (remaining_life it + i * redundancy it <? period_years)%Z
          then (update_at (fun x => x + cost it) (Z.to_nat (remaining_life it + i * redundancy it)) sp,
                update_at (fun l => l ++ [make_occurrence it (remaining_life it + i * redundancy it) i])
                  (Z.to_nat (remaining_life it + i * redundancy it)) sd)
          else (sp, sd)).
Proof.
  intros Hsp Hsd Hpos. unfold place_occurrence.
  destruct (Z.ltb_spec (remaining_life it + i * redundancy it) period_years) as [Hlt|Hge]; [|reflexivity].
  rewrite !py_index_in_range by lia. reflexivity.
Qed.

(** What the inner loop leaves in the schedule, for any list of
    occurrence indices that do not fall before the window. *)
Lemma place_occurrences_spec (l : list Z) :
  (forall i, In i l -> 0 <= remaining_life it + i * redundancy it)%Z ->
  forall sp sd,
  length sp = Z.to_nat period_years ->
  length sd = Z.to_nat period_years ->
  exists sp' sd',
    for_each (place_occurrence period_years it) l (sp, sd) = Some (sp', sd')
    /\ length sp' = Z.to_nat period_years
    /\ length sd' = Z.to_nat period_years
    /\ (forall y, (y < Z.to_nat period_years)%nat ->
          nth y sd' [] =
          nth y sd [] ++
          map (fun i => make_occurrence it (remaining_life it + i * redundancy it) i)
            (filter (fun i => (remaining_life it + i * redundancy it =? Z.of_nat y)%Z) l))
    /\ length (concat sd') =
       (length (concat sd)
        + length (filter (fun i => (remaining_life it + i * redundancy it <? period_years)%Z) l))%nat.
Proof.
  induction l as [|i l IH]; intros Hl sp sd Hsp Hsd.
  - exists sp, sd. simpl. repeat split; auto.
    intros y _. now rewrite app_nil_r.
  - cbn [for_each]. rewrite place_occurrence_in_window; auto with datatypes.
    assert (Hi : (0 <= remaining_life it + i * redundancy it)%Z) by auto with datatypes.
    cbn [bind].
    destruct (Z.ltb_spec (remaining_life it + i * redundancy it) period_years) as [Hlt|Hge].
    + destruct (IH (fun j Hj => Hl j (or_intror Hj))
                  (update_at (fun x => x + cost it) (Z.to_nat (remaining_life it + i * redundancy it)) sp)
                  (update_at (fun l => l ++ [make_occurrence it (remaining_life it + i * redundancy it) i])
                     (Z.to_nat (remaining_life it + i * redundancy it)) sd))
        as (sp' & sd' & Hrun & Hsp' & Hsd' & Hnth & Hcount);
        try (rewrite update_at_length; assumption).
      exists sp', sd'. repeat split; auto.
      * intros y Hy. rewrite (Hnth y Hy). cbn [filter].
        destruct (Z.eqb_spec (remaining_life it + i * redundancy it) (Z.of_nat y)) as [Heq|Hne].
        -- replace (Z.to_nat (remaining_life it + i * redundancy it)) with y by lia.
           rewrite nth_update_at_same by lia.
           rewrite <- app_assoc. reflexivity.
        -- rewrite nth_update_at_other by lia. reflexivity.
      * rewrite Hcount, concat_update_at_length by lia. cbn [filter].
        destruct (Z.ltb_spec (remaining_life it + i * redundancy it) period_years); [simpl; lia | lia].
    + destruct (IH (fun j Hj => Hl j (or_intror Hj)) sp sd Hsp Hsd)
        as (sp' & sd' & Hrun & Hsp' & Hsd' & Hnth & Hcount).
      exists sp', sd'. repeat split; auto.
      * intros y Hy. rewrite (Hnth y Hy). cbn [filter].
        destruct (Z.eqb_spec (remaining_life it + i * redundancy it) (Z.of_nat y)); [lia | reflexivity].
      * rewrite Hcount. cbn [filter].
        destruct (Z.ltb_spec (remaining_life it + i * redundancy it) period_years); [lia | reflexivity].
Qed.

End Scheduler.

Lemma filter_range_eq (j n : Z) :
  filter (fun i => (i =? j)%Z) (py_range n)
  = if (0 <=? j)%Z && (j <? n)%Z then [j] else [].
Proof.
  destruct (Z.le_gt_cases n 0) as [Hn|Hn].
  - unfold py_range. replace (Z.to_nat n) with O by lia. simpl.
    destruct (Z.leb_spec 0 j), (Z.ltb_spec j n); simpl; auto; lia.
  - rewrite <- (Z2Nat.id n) by lia. clear Hn.
    induction (Z.to_nat n) as [|m IH].
    + simpl. destruct (Z.leb_spec 0 j), (Z.ltb_spec j 0); simpl; auto; lia.
    + rewrite py_range_S, filter_app, IH. cbn [filter].
      destruct (Z.eqb_spec (Z.of_nat m) j), (Z.leb_spec 0 j),
        (Z.ltb_spec j (Z.of_nat m)), (Z.ltb_spec j (Z.of_nat (S m)));
        simpl; try lia; auto; congruence.
Qed.

Lemma filter_range_below (m n : Z) :
  (0 <= m <= n)%Z ->
  length (filter (fun i => (i <? m)%Z) (py_range n)) = Z.to_nat m.
Proof.
  intros [Hm Hmn]. rewrite <- (Z2Nat.id n) in * by lia.
  induction (Z.to_nat n) as [|p IH].
  - simpl. lia.
  - rewrite py_range_S, filter_app, length_app. cbn [filter].
    destruct (Z.ltb_spec (Z.of_nat p) m).
    + assert (Hall : forall i, In i (py_range (Z.of_nat p)) -> (i <? m)%Z = true).
      { intros i Hi. apply in_py_range in Hi. apply Z.ltb_lt. lia. }
      clear IH. rewrite forallb_filter_id.
      * unfold py_range. rewrite length_map, length_seq. simpl. lia.
      * apply forallb_forall. exact Hall.
    + rewrite IH by lia. simpl. lia.
Qed.

(** C1 (amended).  For a recurring item (interval [k > 1]) whose first
    occurrence [first] lies in the window [0 <= first < H], the pass of
    the scheduler over this item adds to the bucket of year [y] exactly
    one occurrence when [y = first + i*k] for some [i >= 0], with
    occurrence index [i], and nothing otherwise; no bucket outside
    [0, H) exists.  The number of occurrences emitted is
    [(H - first - 1) / k + 1], the number of terms of the progression
    below [H]; the loop bound [(H - first) / k + 1] exceeds it by one
    exactly when [k] divides [H - first], and the guard
    [occurrence_year < period_years] drops that last term. *)
Theorem C1_recurring_occurrences
  (H : Z) (it : item) (sp : list Q) (sd : list (list occurrence)) :
  (1 < redundancy it)%Z ->
  (0 <= remaining_life it < H)%Z ->
  length sp = Z.to_nat H ->
  length sd = Z.to_nat H ->
  let first := remaining_life it in
  let k := redundancy it in
  exists sp' sd',
    place_item H (sp, sd) it = Some (sp', sd')
    /\ length sd' = Z.to_nat H
    /\ (forall y, (0 <= y < H)%Z ->
          nth (Z.to_nat y) sd' [] =
          nth (Z.to_nat y) sd [] ++
          (if (first <=? y)%Z && ((y - first) mod k =? 0)%Z
           then [make_occurrence it y ((y - first) / k)] else []))
    /\ Z.of_nat (length (concat sd')) =
       (Z.of_nat (length (concat sd)) + ((H - first - 1) / k + 1))%Z
    /\ ((H - first) / k + 1 =
        ((H - first - 1) / k + 1)
        + (if ((H - first) mod k =? 0)%Z then 1 else 0))%Z.
Proof.
  intros Hk Hfirst Hsp Hsd first k.
  unfold place_item. fold first k.
  destruct (Z.geb_spec first H) as [Hge|_]; [lia|].
  destruct (Z.leb_spec k 1) as [Hle|_]; [lia|].
  set (n := ((H - first) / k + 1)%Z).
  assert (Hq : (0 <= (H - first) / k)%Z) by (apply Z.div_pos; lia).
  assert (Hq1 : (0 <= (H - first - 1) / k)%Z) by (apply Z.div_pos; lia).
  assert (Hm1 := Z.mul_div_le (H - first - 1) k ltac:(lia)).
  assert (Hm2 := Z.mul_succ_div_gt (H - first - 1) k ltac:(lia)).
  assert (Hn1 := Z.mul_div_le (H - first) k ltac:(lia)).
  assert (Hn2 := Z.mul_succ_div_gt (H - first) k ltac:(lia)).
  assert (Hmn : ((H - first - 1) / k <= (H - first) / k)%Z)
    by (apply Z.div_le_mono; lia).
  destruct (place_occurrences_spec H it (py_range n)) with (sp := sp) (sd := sd)
    as (sp' & sd' & Hrun & Hsp' & Hsd' & Hnth & Hcount); auto.
  { intros i Hi. apply in_py_range in Hi. fold first k. nia. }
  fold first k in Hnth, Hcount.
  exists sp', sd'. split; [exact Hrun|]. split; [exact Hsd'|]. split; [|split].
  - intros y Hy. rewrite (Hnth (Z.to_nat y)) by lia. f_equal.
    rewrite Z2Nat.id by lia.
    rewrite (filter_ext_in _
      (fun i => (i =? (if (first <=? y)%Z && ((y - first) mod k =? 0)%Z
                       then (y - first) / k else -1))%Z)).
    + rewrite filter_range_eq.
      destruct (Z.leb_spec first y) as [Hfy|Hfy];
        destruct (Z.eqb_spec ((y - first) mod k) 0) as [Hmod|Hmod]; simpl;
        try reflexivity.
      assert (Hy1 := Z.mul_div_le (y - first) k ltac:(lia)).
      assert (Hy2 : ((y - first) / k <= (H - first) / k)%Z)
        by (apply Z.div_le_mono; lia).
      assert (Hy3 : (0 <= (y - first) / k)%Z) by (apply Z.div_pos; lia).
      destruct (Z.leb_spec 0 ((y - first) / k)); [|lia].
      destruct (Z.ltb_spec ((y - first) / k) n); [|unfold n in *; lia].
      simpl. f_equal. f_equal.
      pose proof (Z.div_mod (y - first) k ltac:(lia)). lia.
    + intros i Hi. apply in_py_range in Hi.
      destruct (Z.leb_spec first y) as [Hfy|Hfy];
        destruct (Z.eqb_spec ((y - first) mod k) 0) as [Hmod|Hmod]; simpl.
      * pose proof (Z.div_mod (y - first) k ltac:(lia)) as Hdm.
        rewrite Hmod in Hdm.
        destruct (Z.eqb_spec (first + i * k) y), (Z.eqb_spec i ((y - first) / k));
          try reflexivity; nia.
      * destruct (Z.eqb_spec (first + i * k) y) as [Heq|Hne];
          destruct (Z.eqb_spec i (-1)); try reflexivity; try lia.
        exfalso. apply Hmod. subst y.
        replace (first + i * k - first)%Z with (i * k)%Z by lia.
        apply Z.mod_mul. lia.
      * destruct (Z.eqb_spec (first + i * k) y), (Z.eqb_spec i (-1));
          try reflexivity; try nia.
      * destruct (Z.eqb_spec (first + i * k) y), (Z.eqb_spec i (-1));
          try reflexivity; try nia.
  - rewrite Hcount, Nat2Z.inj_add. f_equal.
    rewrite (filter_ext_in _ (fun i => (i <? (H - first - 1) / k + 1)%Z)).
    + rewrite filter_range_below by (unfold n; lia). lia.
    + intros i Hi. apply in_py_range in Hi.
      destruct (Z.ltb_spec (first + i * k) H), (Z.ltb_spec i ((H - first - 1) / k + 1));
        try reflexivity; nia.
  - pose proof (Z.div_mod (H - first) k ltac:(lia)) as Hdm.
    pose proof (Z.mod_pos_bound (H - first) k ltac:(lia)) as Hb.
    destruct (Z.eqb_spec ((H - first) mod k) 0) as [Hmod|Hmod]; nia.
Qed.

Lemma C1_recurring_occurrences_witness :
  exists sp' sd',
    place_item 30 (repeat 0 30, repeat [] 30) roof = Some (sp', sd')
    /\ Z.of_nat (length (concat sd')) = 2%Z.
Proof.
  destruct (C1_recurring_occurrences 30 roof (repeat 0 30) (repeat [] 30))
    as (sp' & sd' & Hrun & _ & _ & Hcount & _);
    [simpl; lia | simpl; lia | reflexivity | reflexivity |].
  exists sp', sd'. split; [exact Hrun | rewrite Hcount; reflexivity].
Defined.

Lemma C1_count_counterexample :
  (1 < redundancy every_five_years)%Z
  /\ (remaining_life every_five_years < 30)%Z
  /\ exists sp sd,
       calculate_yearly_expenses [every_five_years] 30 2022 = Some (sp, sd)
       /\ map (map o_year) sd
          = [[0]; []; []; []; []; [5]; []; []; []; []; [10]; []; []; []; [];
             [15]; []; []; []; []; [20]; []; []; []; []; [25]; []; []; []; []]%Z
       /\ Z.of_nat (length (concat sd))
          <> ((30 - remaining_life every_five_years)
              / redundancy every_five_years + 1)%Z.
Proof.
  split; [reflexivity|]. split; [reflexivity|].
  eexists. eexists. split; [vm_compute; reflexivity|].
  split; [reflexivity | vm_compute; discriminate].
Qed.

(** ** The loan amortizer *)

Lemma Qeq_bool_false (x y : Q) : ~ x == y -> Qeq_bool x y = false.
Proof.
  intros H. destruct (Qeq_bool x y) eqn:E; [|reflexivity].
  apply Qeq_bool_eq in E. contradiction.
Qed.

(** ** Reserve contribution *)

Lemma add_contribution_fold (cfg : config) (y : Z) (l : list (Z * (Q * Q))) (acc : Q) :
  fold_left (add_contribution cfg y) l acc
  == acc + reserve_contribution_formula cfg l y.
Proof.
  unfold reserve_contribution_formula.
  revert acc; induction l as [|[y' [large total]] l IH]; intros acc.
  - simpl. lra.
  - cbn [fold_left filter]. rewrite IH. unfold add_contribution.
    cbn [fst snd].
    destruct ((y' >? y)%Z && Qltb 0 large); cbn [map Qsum fold_right fst snd].
    + fold (Qsum (map (fun e => fst (snd e) * (LOAN_THRESHOLD_PERCENTAGE cfg / 100)
                   / inject_Z (Z.max (fst e - y) 1))
       (filter (fun e => (fst e >? y)%Z && Qltb 0 (fst (snd e))) l))).
      ring.
    + reflexivity.
Qed.

Lemma add_contribution_skip (cfg : config) (y : Z) (l : list (Z * (Q * Q))) (acc : Q) :
  fold_left (add_contribution cfg y) l acc
  = fold_left (add_contribution cfg y) (filter (fun e => (fst e >? y)%Z) l) acc.
Proof.
  revert acc; induction l as [|[y' [large total]] l IH]; intros acc;
    [reflexivity|].
  cbn [fold_left filter fst].
  destruct (y' >? y)%Z eqn:E.
  - cbn [fold_left]. apply IH.
  - rewrite IH. f_equal. unfold add_contribution. rewrite E. reflexivity.
Qed.

(** C9.  The reserve contribution of year [y] is the sum, over the
    entries of future years [y' > y] with large expenses, of
    [(largeExpense(y') * loanThresholdPct/100) / max(y' - y, 1)]; the
    entries of the current year and of earlier years contribute nothing:
    removing them leaves the result unchanged. *)
Theorem C9_reserve_contribution
  (cfg : config) (future_expenses_by_year : list (Z * (Q * Q))) (y : Z) :
  calculate_reserve_contribution_for_future_expenses cfg future_expenses_by_year y
  == reserve_contribution_formula cfg future_expenses_by_year y
  /\ calculate_reserve_contribution_for_future_expenses cfg future_expenses_by_year y
     = calculate_reserve_contribution_for_future_expenses cfg
         (filter (fun e => (fst e >? y)%Z) future_expenses_by_year) y.
Proof.
  unfold calculate_reserve_contribution_for_future_expenses. split.
  - rewrite add_contribution_fold. lra.
  - apply add_contribution_skip.
Qed.

(** ** Loops over a range of years *)

Lemma py_range2_seq (a n : Z) :
  py_range2 a (a + n) = map (fun j => (a + Z.of_nat j)%Z) (seq 0 (Z.to_nat n)).
Proof.
  unfold py_range2, py_range. replace (a + n - a)%Z with n by lia.
  now rewrite map_map.
Qed.

Lemma simulation_years_seq (cfg : config) :
  simulation_years cfg
  = map (fun j => (FISCAL_YEAR cfg + Z.of_nat j)%Z) (seq 0 (Z.to_nat (PERIOD cfg))).
Proof. apply py_range2_seq. Qed.

Section RangeLoops.

Context {St : Type}.
Variable body : St -> Z -> option St.
Variable a : Z.

(** An invariant indexed by the number of iterations done. *)
Lemma for_each_range_invariant (I : nat -> St -> Prop) (n : nat) (s0 s' : St) :
  I O s0 ->
  (forall j s s1, (j < n)%nat -> I j s ->
     body s (a + Z.of_nat j)%Z = Some s1 -> I (S j) s1) ->
  for_each body (map (fun j => (a + Z.of_nat j)%Z) (seq 0 n)) s0 = Some s' ->
  I n s'.
Proof.
  intros H0 Hstep.
  assert (G : forall m b s, (b + m = n)%nat -> I b s ->
              for_each body (map (fun j => (a + Z.of_nat j)%Z) (seq b m)) s = Some s' -> I n s').
  { induction m as [|m IH]; intros b s Hb Hs Hrun.
    - simpl in Hrun. injection Hrun as <-. replace n with b by lia. exact Hs.
    - cbn [seq map for_each] in Hrun.
      apply bind_Some in Hrun as (s1 & Hs1 & Hrun).
      apply (IH (S b) s1); [lia | | exact Hrun].
      apply (Hstep b s); [lia | exact Hs | exact Hs1]. }
  intros Hrun. apply (G n O s0); auto.
Qed.

End RangeLoops.

(** Two runs of loops over the same range, related step by step. *)
Lemma for_each_range_related {St T : Type}
  (body1 : St -> Z -> option St) (body2 : T -> Z -> option T) (a : Z)
  (R : nat -> St -> T -> Prop) (n : nat) (s0 s' : St) (t0 t' : T) :
  R O s0 t0 ->
  (forall j s t s1 t1, (j < n)%nat -> R j s t ->
     body1 s (a + Z.of_nat j)%Z = Some s1 ->
     body2 t (a + Z.of_nat j)%Z = Some t1 -> R (S j) s1 t1) ->
  for_each body1 (map (fun j => (a + Z.of_nat j)%Z) (seq 0 n)) s0 = Some s' ->
  for_each body2 (map (fun j => (a + Z.of_nat j)%Z) (seq 0 n)) t0 = Some t' ->
  R n s' t'.
Proof.
  intros H0 Hstep.
  assert (G : forall m b s t, (b + m = n)%nat -> R b s t ->
     for_each body1 (map (fun j => (a + Z.of_nat j)%Z) (seq b m)) s = Some s' ->
     for_each body2 (map (fun j => (a + Z.of_nat j)%Z) (seq b m)) t = Some t' ->
     R n s' t').
  { induction m as [|m IH]; intros b s t Hb HR Hrun1 Hrun2.
    - simpl in Hrun1, Hrun2. injection Hrun1 as <-. injection Hrun2 as <-.
      replace n with b by lia. exact HR.
    - cbn [seq map for_each] in Hrun1, Hrun2.
      apply bind_Some in Hrun1 as (s1 & Hs1 & Hrun1).
      apply bind_Some in Hrun2 as (t1 & Ht1 & Hrun2).
      apply (IH (S b) s1 t1); [lia | | exact Hrun1 | exact Hrun2].
      apply (Hstep b s t); [lia | exact HR | exact Hs1 | exact Ht1]. }
  intros Hrun1 Hrun2. apply (G n O s0 t0); auto.
Qed.

(** ** One simulated year *)

Lemma py_last_app {A : Type} (l : list A) (x : A) : py_last (l ++ [x]) = Some x.
Proof. unfold py_last. now rewrite rev_app_distr. Qed.

Lemma py_last_nth_error {A : Type} (l : list A) (x : A) :
  py_last l = Some x -> nth_error l (length l - 1) = Some x.
Proof.
  unfold py_last. destruct (rev l) as [|y t] eqn:E; [discriminate|].
  intros [= ->]. apply (f_equal (@rev A)) in E. rewrite rev_involutive in E.
  subst l. simpl. rewrite length_app. simpl.
  rewrite nth_error_app2 by lia.
  replace (length (rev t) + 1 - 1 - length (rev t))%nat with O by lia.
  reflexivity.
Qed.

Lemma py_last_nonempty {A : Type} (l : list A) :
  l <> [] -> exists x, py_last l = Some x.
Proof.
  intros Hl. destruct (exists_last Hl) as (l' & x & ->).
  exists x. apply py_last_app.
Qed.

(** Everything one iteration of the main loop does to the state. *)
Lemma simulate_year_inv (cfg : config) (fee : Q) (fut : list (Z * (Q * Q)))
  (s s' : sim_state) (y : Z) :
  simulate_year cfg fee fut s y = Some s' ->
  exists r,
    simulation_data s' = simulation_data s ++ [r]
    /\ year r = y
    /\ year_record_ok cfg fee fut r
    /\ ((y = FISCAL_YEAR cfg /\ opening_balance r = STARTING_BALANCE cfg)
        \/ (y <> FISCAL_YEAR cfg /\
            exists r0, py_last (simulation_data s) = Some r0
                       /\ opening_balance r = closing_balance r0))
    /\ active_loans s'
       = (if Qltb 0 (loan_portion r)
          then active_loans s ++ [ {| principal := loan_portion r; start_year := y;
                                      term := LOAN_TERM_YEARS_MODEL cfg |} ]
          else active_loans s)
    /\ calculate_loan_payments_for_year cfg (active_loans s') y
       = Some (loan_repayments r)
    /\ active_loans_count r
       = Z.of_nat (length (filter (loan_active y) (active_loans s')))
    /\ min_balance s' = amount_min (min_balance s) (closing_balance r)
    /\ total_deficits s'
       = (if Qltb (closing_balance r) (MIN_RESERVE_BALANCE cfg)
          then total_deficits s
               + Qabs (closing_balance r - MIN_RESERVE_BALANCE cfg)
          else total_deficits s).
Proof.
  unfold simulate_year. intros Hrun.
  apply bind_Some in Hrun as (opening & Hopen & Hrun).
  apply bind_Some in Hrun as ([[[te le] lp] cp] & Hexp & Hrun).
  cbv zeta beta iota in Hrun.
  apply bind_Some in Hrun as (lr & Hlr & Hrun).
  injection Hrun as <-. cbn [simulation_data active_loans min_balance total_deficits].
  eexists. split; [reflexivity|]. cbn.
  split; [reflexivity|]. split; [constructor; cbn; auto|].
  split; [|repeat split; auto].
  destruct (Z.eqb_spec y (FISCAL_YEAR cfg)) as [Hy|Hy].
  - left. split; [exact Hy | congruence].
  - right. split; [exact Hy|].
    apply bind_Some in Hopen as (r0 & Hr0 & [= <-]).
    exists r0. auto.
Qed.

Lemma simulate_inv (cfg : config) (fee : option Q)
  (data : list year_record) (mb : amount) (td : Q) :
  simulate_with_monthly_fees cfg fee = Some (data, mb, td) ->
  exists fut s,
    precalculate_future_expenses cfg = Some fut
    /\ simulate_years cfg (effective_fee cfg fee) fut (simulation_years cfg)
         initial_state = Some s
    /\ data = simulation_data s /\ mb = min_balance s /\ td = total_deficits s.
Proof.
  unfold simulate_with_monthly_fees. intros Hrun.
  apply bind_Some in Hrun as (fut & Hfut & Hrun).
  apply bind_Some in Hrun as (s & Hs & [= <- <- <-]).
  exists fut, s. auto.
Qed.

Lemma loan_active_iff (y : Z) (l : loan) :
  loan_active y l = true <-> (start_year l <= y < start_year l + term l)%Z.
Proof. unfold loan_active. rewrite andb_true_iff, Z.leb_le, Z.ltb_lt. tauto. Qed.

Lemma loan_payments_app_inactive (cfg : config) (L : list loan) (l : loan) (y : Z) :
  loan_active y l = false ->
  calculate_loan_payments_for_year cfg (L ++ [l]) y
  = calculate_loan_payments_for_year cfg L y.
Proof.
  intros Hl. unfold calculate_loan_payments_for_year. rewrite for_each_app.
  destruct (for_each (add_loan_payment cfg y) L 0) as [t|]; [|reflexivity].
  cbn [bind for_each]. unfold add_loan_payment.
  unfold loan_active in Hl. rewrite Hl. reflexivity.
Qed.

Lemma run_inv_init (cfg : config) (fee : Q) (fut : list (Z * (Q * Q))) :
  run_inv cfg fee fut O initial_state.
Proof.
  constructor; simpl.
  - reflexivity.
  - intros [|j] r; discriminate.
  - intros l [].
Qed.

Lemma run_inv_step (cfg : config) (fee : Q) (fut : list (Z * (Q * Q)))
  (k : nat) (s s1 : sim_state) :
  run_inv cfg fee fut k s ->
  simulate_year cfg fee fut s (FISCAL_YEAR cfg + Z.of_nat k) = Some s1 ->
  run_inv cfg fee fut (S k) s1.
Proof.
  intros [Hlen Hrec Hled] Hstep.
  apply simulate_year_inv in Hstep
    as (r & Hdata & Hyear & Hok & Hopen & Hloans & Hpay & Hcount & _ & _).
  set (new := {| principal := loan_portion r;
                 start_year := (FISCAL_YEAR cfg + Z.of_nat k)%Z;
                 term := LOAN_TERM_YEARS_MODEL cfg |}) in *.
  assert (Hold : forall y, (y < FISCAL_YEAR cfg + Z.of_nat k)%Z ->
            filter (loan_active y) (active_loans s1)
            = filter (loan_active y) (active_loans s)
            /\ calculate_loan_payments_for_year cfg (active_loans s1) y
               = calculate_loan_payments_for_year cfg (active_loans s) y).
  { intros y Hy. rewrite Hloans.
    destruct (Qltb 0 (loan_portion r)); [|auto].
    assert (Hnew : loan_active y new = false).
    { unfold loan_active, new; simpl.
      destruct (Z.leb_spec (FISCAL_YEAR cfg + Z.of_nat k) y); [lia | reflexivity]. }
    split.
    - rewrite filter_app. cbn [filter]. rewrite Hnew. apply app_nil_r.
    - apply loan_payments_app_inactive. exact Hnew. }
  constructor.
  - rewrite Hdata, length_app. simpl. lia.
  - intros j rj Hj. rewrite Hdata in Hj.
    destruct (Nat.lt_ge_cases j k) as [Hlt|Hge].
    + rewrite nth_error_app1 in Hj by lia.
      destruct (Hrec j rj Hj) as [Hy Hrok Hfirst Hnext Hcnt Hrep].
      destruct (Hold (year rj)) as [Hf Hc]; [lia|].
      constructor; auto.
      * intros r' Hr'. rewrite Hdata in Hr'.
        destruct (Nat.lt_ge_cases (S j) k) as [Hlt'|Hge'].
        -- rewrite nth_error_app1 in Hr' by lia. auto.
        -- rewrite nth_error_app2 in Hr' by lia.
           replace (S j - length (simulation_data s))%nat with O in Hr' by lia.
           injection Hr' as <-.
           destruct Hopen as [[Hfy _]|[_ (r0 & Hr0 & Hop)]]; [lia|].
           apply py_last_nth_error in Hr0.
           replace (length (simulation_data s) - 1)%nat with j in Hr0 by lia.
           congruence.
      * rewrite Hf. exact Hcnt.
      * rewrite Hc. exact Hrep.
    + assert (j = k).
      { apply nth_error_lt in Hj. rewrite length_app in Hj. simpl in Hj. lia. }
      subst j. rewrite nth_error_app2 in Hj by lia.
      replace (k - length (simulation_data s))%nat with O in Hj by lia.
      injection Hj as <-.
      constructor; auto.
      * intros ->. destruct Hopen as [[_ Ho]|[Hne _]]; [exact Ho | lia].
      * intros r' Hr'. rewrite Hdata in Hr'.
        assert (Hlt := nth_error_lt _ _ _ Hr').
        rewrite length_app in Hlt. simpl in Hlt. lia.
      * rewrite Hyear. exact Hcount.
      * rewrite Hyear. exact Hpay.
  - intros l Hl. rewrite Hloans in Hl.
    assert (Hkeep : In l (active_loans s) ->
              (FISCAL_YEAR cfg <= start_year l < FISCAL_YEAR cfg + Z.of_nat (S k))%Z
              /\ 0 < principal l /\ term l = LOAN_TERM_YEARS_MODEL cfg).
    { intros Hin. destruct (Hled l Hin) as (? & ? & ?). repeat split; auto; lia. }
    destruct (Qltb 0 (loan_portion r)) eqn:Hlp; [|auto].
    apply in_app_or in Hl as [Hin|[<-|[]]]; [auto|].
    apply Qltb_lt in Hlp. unfold new; simpl. repeat split; auto; lia.
Qed.

(** The invariant holds at the end of every run that returns. *)
Lemma simulate_years_inv (cfg : config) (fee : Q) (fut : list (Z * (Q * Q)))
  (s : sim_state) :
  simulate_years cfg fee fut (simulation_years cfg) initial_state = Some s ->
  run_inv cfg fee fut (Z.to_nat (PERIOD cfg)) s.
Proof.
  unfold simulate_years. rewrite simulation_years_seq.
  apply for_each_range_invariant with (I := run_inv cfg fee fut).
  - apply run_inv_init.
  - intros j s0 s1 _. apply run_inv_step.
Qed.

Lemma nth_error_of_In {A : Type} (l : list A) (x : A) :
  In x l -> exists j, nth_error l j = Some x.
Proof. apply In_nth_error. Qed.

(** The records of a run that returns, with the fee it was made with. *)
Lemma simulate_records (cfg : config) (fee : option Q)
  (data : list year_record) (mb : amount) (td : Q) :
  simulate_with_monthly_fees cfg fee = Some (data, mb, td) ->
  exists fut s,
    precalculate_future_expenses cfg = Some fut
    /\ simulate_years cfg (effective_fee cfg fee) fut (simulation_years cfg)
         initial_state = Some s
    /\ data = simulation_data s /\ mb = min_balance s /\ td = total_deficits s
    /\ run_inv cfg (effective_fee cfg fee) fut (Z.to_nat (PERIOD cfg)) s.
Proof.
  intros Hrun. apply simulate_inv in Hrun as (fut & s & Hfut & Hs & Hd & Hm & Ht).
  exists fut, s. do 5 (split; [assumption|]).
  apply (simulate_years_inv _ _ _ _ Hs).
Qed.

Lemma short_plan_returns :
  simulate_with_monthly_fees short_plan None
  = Some (short_plan_data, short_plan_min, short_plan_deficits).
Proof. vm_compute. reflexivity. Qed.

(** ** Balances carried from year to year *)

(** C6.  A run produces one record per year of the horizon; the opening
    balance of the first record is the configured starting balance, and
    the closing balance of each record is the opening balance of the
    next one. *)
Theorem C6_balance_chain (cfg : config) (fee : option Q)
  (data : list year_record) (mb : amount) (td : Q) :
  simulate_with_monthly_fees cfg fee = Some (data, mb, td) ->
  length data = Z.to_nat (PERIOD cfg)
  /\ (forall r, nth_error data 0 = Some r ->
        opening_balance r = STARTING_BALANCE cfg)
  /\ (forall y r r', nth_error data y = Some r ->
        nth_error data (S y) = Some r' ->
        closing_balance r = opening_balance r').
Proof.
  intros Hrun.
  apply simulate_records in Hrun as (fut & s & _ & _ & -> & _ & _ & Hinv).
  destruct Hinv as [Hlen Hrec _]. split; [exact Hlen|]. split.
  - intros r Hr. apply (rec_first _ _ _ _ _ _ (Hrec _ _ Hr)). reflexivity.
  - intros y r r' Hr Hr'. apply (rec_next _ _ _ _ _ _ (Hrec _ _ Hr)). exact Hr'.
Qed.

Lemma C6_balance_chain_witness :
  simulate_with_monthly_fees short_plan None
  = Some (short_plan_data, short_plan_min, short_plan_deficits)
  /\ length short_plan_data = 2%nat
  /\ (forall y r r', nth_error short_plan_data y = Some r ->
        nth_error short_plan_data (S y) = Some r' ->
        closing_balance r = opening_balance r').
Proof.
  destruct (C6_balance_chain short_plan None _ _ _ short_plan_returns)
    as (Hlen & _ & Hchain).
  split; [exact short_plan_returns|].
  split; [exact Hlen | exact Hchain].
Defined.

(** ** Safety net *)



(** C2 (amended).  The safety-net target recorded for a year is the
    safety-net percentage of the sum of the inflated base maintenance,
    the total expenses falling in that year and the loan repayments of
    that year. *)
Theorem C2_safety_net_target (cfg : config) (fee : option Q)
  (data : list year_record) (mb : amount) (td : Q) :
  simulate_with_monthly_fees cfg fee = Some (data, mb, td) ->
  forall r, In r data ->
    safety_net_target r
    == SAFETY_NET_PERCENTAGE cfg / 100
       * (base_maintenance r + future_expenses_in_year r + loan_repayments r)
    /\ base_maintenance r
       = effective_fee cfg fee * inject_Z (HOUSING cfg) * 12
         * (1 + INFLATION_RATE cfg / 100) ^ (year r - FISCAL_YEAR cfg)
    /\ (exists large loaned cash,
          get_expenses_with_loan_details cfg (year r) (HOUSING cfg)
          = Some (future_expenses_in_year r, large, loaned, cash)).
Proof.
  intros Hrun r Hr.
  apply simulate_records in Hrun as (fut & s & _ & _ & -> & _ & _ & Hinv).
  apply nth_error_of_In in Hr as (j & Hj).
  pose proof (rec_ok _ _ _ _ _ _ (inv_records _ _ _ _ _ Hinv _ _ Hj)) as Hok.
  split; [|split].
  - rewrite (ok_target _ _ _ _ Hok). unfold calculate_safety_net_target. ring.
  - apply (ok_base _ _ _ _ Hok).
  - eexists. eexists. eexists. apply (ok_expenses _ _ _ _ Hok).
Qed.

Lemma C2_safety_net_target_witness :
  simulate_with_monthly_fees short_plan None
  = Some (short_plan_data, short_plan_min, short_plan_deficits)
  /\ forall r, In r short_plan_data ->
       safety_net_target r
       == SAFETY_NET_PERCENTAGE short_plan / 100
          * (base_maintenance r + future_expenses_in_year r + loan_repayments r).
Proof.
  split; [exact short_plan_returns|].
  intros r Hr.
  apply (C2_safety_net_target short_plan None _ _ _ short_plan_returns r Hr).
Defined.

(** In the first year of [short_plan] nothing is spent, while 36750 is
    set aside for the roof of the following year: the target is 10% of
    120000, not 10% of 156750. *)
Lemma C2_reserve_contribution_counterexample :
  exists r,
    simulate_with_monthly_fees short_plan None
    = Some (short_plan_data, short_plan_min, short_plan_deficits)
    /\ nth_error short_plan_data 0 = Some r
    /\ safety_net_target r == 12000
    /\ SAFETY_NET_PERCENTAGE short_plan / 100
       * (base_maintenance r + reserve_contribution r + loan_repayments r)
       == 15675
    /\ ~ safety_net_target r
         == SAFETY_NET_PERCENTAGE short_plan / 100
            * (base_maintenance r + reserve_contribution r + loan_repayments r).
Proof.
  eexists. split; [exact short_plan_returns|].
  split; [reflexivity|]. split; [reflexivity|]. split; [reflexivity|].
  vm_compute. discriminate.
Qed.

(** ** Active loans *)

Lemma loan_payments_filter (cfg : config) (L : list loan) (y : Z) (acc : Q) :
  for_each (add_loan_payment cfg y) L acc
  = for_each
      (fun total l =>
         annual_payment <-
           get_loan_payments (principal l) (LOAN_RATE_PERCENTAGE cfg) (term l) ;;
         Some (total + annual_payment))
      (filter (loan_active y) L) acc.
Proof.
  revert acc; induction L as [|l L IH]; intros acc; [reflexivity|].
  cbn [for_each filter]. unfold add_loan_payment at 1.
  change ((start_year l <=? y)%Z && (y <? start_year l + term l)%Z)
    with (loan_active y l).
  destruct (loan_active y l).
  - cbn [for_each].
    destruct (get_loan_payments (principal l) (LOAN_RATE_PERCENTAGE cfg) (term l));
      cbn [bind]; [apply IH | reflexivity].
  - cbn [bind]. apply IH.
Qed.

(** C8.  The loan repayments of a year are the total of the annual
    payments of exactly the loans [l] of the ledger with
    [start_year l <= y < start_year l + term l], and the count of active
    loans recorded for year [y] is the number of loans of the ledger that
    satisfy this condition.  The ledger is the list of loans the run has
    opened. *)
Theorem C8_active_loans (cfg : config) (fee : option Q)
  (data : list year_record) (mb : amount) (td : Q) :
  simulate_with_monthly_fees cfg fee = Some (data, mb, td) ->
  exists fut s,
    simulate_years cfg (effective_fee cfg fee) fut (simulation_years cfg)
      initial_state = Some s
    /\ data = simulation_data s
    /\ forall r, In r data ->
         let active := filter (loan_active (year r)) (active_loans s) in
         (forall l, In l active <->
                    In l (active_loans s)
                    /\ (start_year l <= year r < start_year l + term l)%Z)
         /\ calculate_loan_payments_for_year cfg (active_loans s) (year r)
            = sum_annual_payments cfg active
         /\ sum_annual_payments cfg active = Some (loan_repayments r)
         /\ active_loans_count r = Z.of_nat (length active).
Proof.
  intros Hrun.
  apply simulate_records in Hrun as (fut & s & _ & Hs & -> & _ & _ & Hinv).
  exists fut, s. split; [exact Hs|]. split; [reflexivity|].
  intros r Hr active.
  apply nth_error_of_In in Hr as (j & Hj).
  destruct (inv_records _ _ _ _ _ Hinv _ _ Hj) as [_ _ _ _ Hcount Hpay].
  assert (Hsum : calculate_loan_payments_for_year cfg (active_loans s) (year r)
                 = sum_annual_payments cfg active)
    by apply loan_payments_filter.
  split; [|split; [|split]].
  - intros l. unfold active. rewrite filter_In, loan_active_iff. tauto.
  - exact Hsum.
  - rewrite <- Hsum. exact Hpay.
  - exact Hcount.
Qed.

Lemma C8_active_loans_witness :
  map active_loans_count short_plan_data = [0; 1]%Z
  /\ exists fut s,
       simulate_years short_plan (effective_fee short_plan None) fut
         (simulation_years short_plan) initial_state = Some s
       /\ short_plan_data = simulation_data s
       /\ forall r, In r short_plan_data ->
            active_loans_count r
            = Z.of_nat (length (filter (loan_active (year r)) (active_loans s))).
Proof.
  split; [reflexivity|].
  destruct (C8_active_loans short_plan None _ _ _ short_plan_returns)
    as (fut & s & Hs & Hd & Hall).
  exists fut, s. split; [exact Hs|]. split; [exact Hd|].
  intros r Hr. apply (Hall r Hr).
Defined.

(** ** Nonnegative amounts *)




Section Runs.

Variable cfg : config.


End Runs.







(** ** Closing balances and deficits *)



Section NonnegativeInputs.

Variable cfg : config.
Variable fee : Q.
Variable fut : list (Z * (Q * Q)).

Hypothesis costs_nonneg : forall it, In it (MODEL_ITEMS cfg) -> 0 <= cost it.
Hypothesis inflation_ok : -100 <= INFLATION_RATE cfg.
Hypothesis loan_rate_nonneg : 0 <= LOAN_RATE_PERCENTAGE cfg.
Hypothesis safety_net_nonneg : 0 <= SAFETY_NET_PERCENTAGE cfg.
Hypothesis housing_nonneg : (0 <= HOUSING cfg)%Z.
Hypothesis fee_nonneg : 0 <= fee.



Hypothesis floor_zero : MIN_RESERVE_BALANCE cfg == 0.


End NonnegativeInputs.

(** ** Monotonicity in the fee *)


Section TwoFees.

Variable cfg : config.
Variables F F' : Q.
Variable fut : list (Z * (Q * Q)).

Hypothesis housing_nonneg : (0 <= HOUSING cfg)%Z.
Hypothesis inflation_ok : -100 <= INFLATION_RATE cfg.
Hypothesis safety_net_nonneg : 0 <= SAFETY_NET_PERCENTAGE cfg.
Hypothesis fee_le : F <= F'.



End TwoFees.

(** * Further properties of the workbook *)

(** ** The scheduler: one-time items, bounds, consistency, errors *)

Lemma py_range_pos (n : Z) :
  (1 <= n)%Z -> py_range n = 0%Z :: map Z.of_nat (seq 1 (Z.to_nat n - 1)).
Proof.
  intros Hn. unfold py_range.
  replace (Z.to_nat n) with (S (Z.to_nat n - 1)) at 1 by lia. reflexivity.
Qed.

(** X1.  A one-time item (interval at most 1) whose first occurrence
    lies in the window adds its cost to the total of that year and one
    occurrence, of index 0, to the bucket of that year; every other year
    is left as it was. *)
Theorem X1_one_time_item (H : Z) (it : item) (sp : list Q)
  (sd : list (list occurrence)) :
  (redundancy it <= 1)%Z ->
  (0 <= remaining_life it < H)%Z ->
  length sp = Z.to_nat H ->
  length sd = Z.to_nat H ->
  place_item H (sp, sd) it
  = Some (update_at (fun x => x + cost it) (Z.to_nat (remaining_life it)) sp,
          update_at (fun l => l ++ [make_occurrence it (remaining_life it) 0])
            (Z.to_nat (remaining_life it)) sd).
Proof.
  intros Hk Hfirst Hsp Hsd. unfold place_item.
  destruct (Z.geb_spec (remaining_life it) H); [lia|].
  destruct (Z.leb_spec (redundancy it) 1); [|lia].
  change (py_range 1) with [0%Z]. cbn [for_each].
  rewrite place_occurrence_in_window by (auto; lia).
  replace (remaining_life it + 0 * redundancy it)%Z with (remaining_life it) by lia.
  destruct (Z.ltb_spec (remaining_life it) H); [reflexivity | lia].
Qed.

Lemma X1_one_time_item_witness :
  exists sp sd,
    place_item 3 (repeat 0 3, repeat [] 3) untyped_item = Some (sp, sd)
    /\ sp = [0 + 1200; 0; 0]
    /\ map (map o_redundancy_at) sd = [[0%Z]; []; []].
Proof.
  eexists. eexists. split.
  - apply (X1_one_time_item 3 untyped_item (repeat 0 3) (repeat [] 3));
      [simpl; lia | simpl; lia | reflexivity | reflexivity].
  - split; reflexivity.
Defined.

Lemma place_occurrence_lengths (H : Z) (it : item) (s s' : schedule) (i : Z) :
  place_occurrence H it s i = Some s' ->
  length (fst s') = length (fst s) /\ length (snd s') = length (snd s).
Proof.
  destruct s as [sp sd]. unfold place_occurrence.
  destruct (remaining_life it + i * redundancy it <? H)%Z;
    [|intros [= <-]; auto].
  intros Hrun. apply bind_Some in Hrun as (n & _ & Hrun).
  apply bind_Some in Hrun as (m & _ & [= <-]). cbn [fst snd].
  now rewrite !update_at_length.
Qed.

Lemma place_item_lengths (H : Z) (it : item) (s s' : schedule) :
  place_item H s it = Some s' ->
  length (fst s') = length (fst s) /\ length (snd s') = length (snd s).
Proof.
  unfold place_item. destruct (remaining_life it >=? H)%Z; [intros [= <-]; auto|].
  apply for_each_invariant
    with (I := fun s0 : schedule =>
                 length (fst s0) = length (fst s) /\ length (snd s0) = length (snd s));
    [|auto].
  intros s0 i s1 _ [H1 H2] Hstep.
  apply place_occurrence_lengths in Hstep as [-> ->]. auto.
Qed.

Lemma scheduler_lengths (items : list item) (H sy : Z) (sp : list Q)
  (sd : list (list occurrence)) :
  calculate_yearly_expenses items H sy = Some (sp, sd) ->
  length sp = Z.to_nat H /\ length sd = Z.to_nat H.
Proof.
  unfold calculate_yearly_expenses. intros Hrun.
  change sp with (fst (sp, sd)). change sd with (snd (sp, sd)) at 2.
  revert Hrun. apply for_each_invariant
    with (I := fun s0 : schedule =>
                 length (fst s0) = Z.to_nat H /\ length (snd s0) = Z.to_nat H).
  - intros s0 it s1 _ [H1 H2] Hstep.
    apply place_item_lengths in Hstep as [-> ->]. auto.
  - cbn [fst snd]. now rewrite !repeat_length.
Qed.

Lemma place_item_years (H : Z) (it : item) (sp : list Q)
  (sd : list (list occurrence)) :
  (0 <= remaining_life it)%Z ->
  length sp = Z.to_nat H -> length sd = Z.to_nat H ->
  (forall y o, In o (nth y sd []) -> o_year o = Z.of_nat y) ->
  exists sp' sd',
    place_item H (sp, sd) it = Some (sp', sd')
    /\ length sp' = Z.to_nat H /\ length sd' = Z.to_nat H
    /\ (forall y o, In o (nth y sd' []) -> o_year o = Z.of_nat y).
Proof.
  intros Hrl Hsp Hsd Hyears. unfold place_item.
  destruct (remaining_life it >=? H)%Z; [exists sp, sd; auto|].
  set (n := if (redundancy it <=? 1)%Z then 1%Z
            else ((H - remaining_life it) / redundancy it + 1)%Z).
  destruct (place_occurrences_spec H it (py_range n)) with (sp := sp) (sd := sd)
    as (sp' & sd' & Hrun & Hsp' & Hsd' & Hnth & _); auto.
  - intros i Hi. apply in_py_range in Hi. unfold n in Hi.
    destruct (Z.leb_spec (redundancy it) 1); nia.
  - exists sp', sd'. repeat split; auto.
    intros y o Ho. destruct (Nat.lt_ge_cases y (Z.to_nat H)) as [Hy|Hy].
    + rewrite (Hnth y Hy) in Ho. apply in_app_or in Ho as [Ho|Ho]; [auto|].
      apply in_map_iff in Ho as (i & <- & Hi). apply filter_In in Hi as [_ Hi].
      apply Z.eqb_eq in Hi. exact Hi.
    + rewrite nth_overflow in Ho by lia. contradiction.
Qed.

(** X2.  On a catalog whose items all have a nonnegative first offset
    the scheduler returns; both arrays have one entry per year of the
    window; and every occurrence stored in the bucket of year [y]
    carries the year [y], so that no occurrence has a year outside
    [0, H). *)
Theorem X2_scheduler_window (items : list item) (H start_year : Z) :
  (forall it, In it items -> (0 <= remaining_life it)%Z) ->
  exists sp sd,
    calculate_yearly_expenses items H start_year = Some (sp, sd)
    /\ length sp = Z.to_nat H /\ length sd = Z.to_nat H
    /\ forall y o, In o (nth y sd []) ->
         o_year o = Z.of_nat y /\ (0 <= o_year o < H)%Z.
Proof.
  intros Hitems. unfold calculate_yearly_expenses.
  destruct (for_each_total
              (fun s : schedule =>
                 length (fst s) = Z.to_nat H /\ length (snd s) = Z.to_nat H
                 /\ forall y o, In o (nth y (snd s) []) -> o_year o = Z.of_nat y)
              (place_item H) items
              (repeat 0 (Z.to_nat H), repeat [] (Z.to_nat H)))
    as ([sp sd] & Hrun & Hsp & Hsd & Hyears).
  - intros [sp sd] it Hit (Hsp & Hsd & Hyears). cbn [fst snd] in *.
    destruct (place_item_years H it sp sd) as (sp' & sd' & H1 & H2 & H3 & H4); auto.
    exists (sp', sd'). auto.
  - cbn [fst snd]. rewrite !repeat_length. repeat split; auto.
    intros y o Ho. rewrite nth_repeat in Ho. contradiction.
  - cbn [fst snd] in *. exists sp, sd. repeat split; auto.
    all: pose proof (Hyears y o H0) as Hy; try lia.
    destruct (Nat.lt_ge_cases y (length sd)) as [Hlt|Hge]; [lia|].
    rewrite nth_overflow in H0 by lia. contradiction.
Qed.

Lemma X2_scheduler_window_witness :
  exists sp sd,
    calculate_yearly_expenses default_items 30 2022 = Some (sp, sd)
    /\ length sd = 30%nat
    /\ forall y o, In o (nth y sd []) ->
         o_year o = Z.of_nat y /\ (0 <= o_year o < 30)%Z.
Proof.
  destruct (X2_scheduler_window default_items 30 2022)
    as (sp & sd & Hrun & _ & Hsd & Hyears).
  - intros it Hit. simpl in Hit.
    destruct Hit as [<-|[<-|[<-|[<-|[]]]]]; simpl; lia.
  - exists sp, sd. split; [exact Hrun|]. split; [exact Hsd | exact Hyears].
Defined.

Lemma Qsum_app (l1 l2 : list Q) : Qsum (l1 ++ l2) == Qsum l1 + Qsum l2.
Proof.
  induction l1 as [|x l1 IH]; simpl; [ring|]. rewrite IH. ring.
Qed.

Lemma py_index_lt (len : nat) (i : Z) (n : nat) :
  py_index len i = Some n -> (n < len)%nat.
Proof.
  unfold py_index.
  destruct (Z.leb_spec 0 i).
  - destruct (Z.ltb_spec i (Z.of_nat len)); [intros [= <-]; lia | discriminate].
  - destruct (Z.leb_spec (- Z.of_nat len) i); [intros [= <-]; lia | discriminate].
Qed.

Lemma place_occurrence_consistent (H : Z) (it : item) (s s' : schedule) (i : Z) :
  schedule_consistent s ->
  place_occurrence H it s i = Some s' ->
  schedule_consistent s'.
Proof.
  destruct s as [sp sd]. intros [Hlen Hsum]. cbn [fst snd] in *.
  unfold place_occurrence.
  destruct (remaining_life it + i * redundancy it <? H)%Z;
    [|intros [= <-]; split; auto].
  intros Hrun. apply bind_Some in Hrun as (n & Hn & Hrun).
  apply bind_Some in Hrun as (m & Hm & [= <-]).
  rewrite <- Hlen, Hn in Hm. injection Hm as <-.
  apply py_index_lt in Hn.
  split; cbn [fst snd].
  - now rewrite !update_at_length.
  - intros y. destruct (Nat.eq_dec n y) as [<-|Hne].
    + rewrite !nth_update_at_same by lia.
      rewrite map_app, Qsum_app, (Hsum n). simpl. ring.
    + rewrite !nth_update_at_other by exact Hne. apply Hsum.
Qed.

Lemma place_item_consistent (H : Z) (it : item) (s s' : schedule) :
  schedule_consistent s -> place_item H s it = Some s' -> schedule_consistent s'.
Proof.
  intros Hs. unfold place_item.
  destruct (remaining_life it >=? H)%Z; [now intros [= <-]|].
  apply for_each_invariant with (I := schedule_consistent); [|exact Hs].
  intros s0 i s1 _ Hs0. now apply place_occurrence_consistent.
Qed.

(** X3.  Whenever the scheduler returns, for whatever catalog, the total
    it reports for a year is the sum of the nominal costs of the
    occurrences it stored for that year. *)
Theorem X3_totals_match_occurrences (items : list item) (H start_year : Z)
  (sp : list Q) (sd : list (list occurrence)) :
  calculate_yearly_expenses items H start_year = Some (sp, sd) ->
  forall y, nth y sp 0 == Qsum (map o_cost (nth y sd [])).
Proof.
  unfold calculate_yearly_expenses. intros Hrun.
  assert (Hc : schedule_consistent (sp, sd)).
  { revert Hrun. apply for_each_invariant with (I := schedule_consistent).
    - intros s it s1 _ Hs. now apply place_item_consistent.
    - split; cbn [fst snd]; [now rewrite !repeat_length|].
      intros y. rewrite !nth_repeat. reflexivity. }
  apply Hc.
Qed.

Lemma X3_totals_match_occurrences_witness :
  exists sp sd,
    calculate_yearly_expenses default_items 30 2022 = Some (sp, sd)
    /\ nth 22 sp 0 == 85000
    /\ forall y, nth y sp 0 == Qsum (map o_cost (nth y sd [])).
Proof.
  eexists. eexists. split; [vm_compute; reflexivity|].
  split; [reflexivity|].
  apply (X3_totals_match_occurrences default_items 30 2022).
  vm_compute. reflexivity.
Defined.

Lemma place_item_early_raises (H : Z) (it : item) (sp : list Q)
  (sd : list (list occurrence)) :
  (0 <= H)%Z -> (remaining_life it < - H)%Z ->
  length sp = Z.to_nat H ->
  place_item H (sp, sd) it = None.
Proof.
  intros HH Hrl Hsp. unfold place_item.
  destruct (Z.geb_spec (remaining_life it) H); [lia|].
  set (n := if (redundancy it <=? 1)%Z then 1%Z
            else ((H - remaining_life it) / redundancy it + 1)%Z).
  assert (Hn : (1 <= n)%Z).
  { unfold n. destruct (Z.leb_spec (redundancy it) 1); [lia|].
    assert (0 <= (H - remaining_life it) / redundancy it)%Z
      by (apply Z.div_pos; lia).
    lia. }
  rewrite (py_range_pos n Hn). cbn [for_each]. unfold place_occurrence at 1.
  replace (remaining_life it + 0 * redundancy it)%Z with (remaining_life it) by lia.
  destruct (Z.ltb_spec (remaining_life it) H); [|lia].
  unfold py_index at 1.
  destruct (Z.leb_spec 0 (remaining_life it)); [lia|].
  destruct (Z.leb_spec (- Z.of_nat (length sp)) (remaining_life it)); [lia|].
  reflexivity.
Qed.

Lemma place_occurrence_wraps (H : Z) (it : item) (s : schedule) (i : Z) :
  length (fst s) = Z.to_nat H -> length (snd s) = Z.to_nat H ->
  (- H <= remaining_life it + i * redundancy it)%Z ->
  exists s',
    place_occurrence H it s i = Some s'
    /\ length (fst s') = Z.to_nat H /\ length (snd s') = Z.to_nat H
    /\ (forall y o, In o (nth y (snd s) []) -> In o (nth y (snd s') []))
    /\ (i = 0%Z -> (remaining_life it < 0)%Z ->
        In (make_occurrence it (remaining_life it) 0)
           (nth (Z.to_nat (H + remaining_life it)) (snd s') [])).
Proof.
  destruct s as [sp sd]. cbn [fst snd]. intros Hsp Hsd Hlow.
  unfold place_occurrence.
  set (off := (remaining_life it + i * redundancy it)%Z) in *.
  destruct (Z.ltb_spec off H) as [Hup|Hup].
  - assert (Hidx : exists n, py_index (Z.to_nat H) off = Some n
                     /\ (n < Z.to_nat H)%nat
                     /\ (off < 0 -> n = Z.to_nat (H + off))%Z).
    { unfold py_index. destruct (Z.leb_spec 0 off).
      - destruct (Z.ltb_spec off (Z.of_nat (Z.to_nat H))); [|lia].
        exists (Z.to_nat off). split; [reflexivity|]. split; lia.
      - destruct (Z.leb_spec (- Z.of_nat (Z.to_nat H)) off); [|lia].
        exists (Z.to_nat (Z.of_nat (Z.to_nat H) + off)).
        split; [reflexivity|]. split; [lia|]. intros _. f_equal. lia. }
    destruct Hidx as (n & Hn & Hlt & Hneg).
    rewrite Hsp, Hsd, Hn. cbn [bind]. eexists. split; [reflexivity|].
    cbn [fst snd]. rewrite !update_at_length.
    split; [exact Hsp|]. split; [exact Hsd|]. split.
    + intros y o Ho. destruct (Nat.eq_dec n y) as [<-|Hne].
      * rewrite nth_update_at_same by lia. apply in_or_app. now left.
      * now rewrite nth_update_at_other.
    + intros -> Hrl. assert (Hoff : off = remaining_life it) by (unfold off; lia).
      rewrite Hoff in *. rewrite <- (Hneg Hrl).
      rewrite nth_update_at_same by lia. apply in_or_app. right. now left.
  - exists (sp, sd). split; [reflexivity|]. cbn [fst snd].
    split; [exact Hsp|]. split; [exact Hsd|]. split; [auto|].
    intros -> Hrl. unfold off in *. lia.
Qed.

Lemma place_item_wraps (H : Z) (it : item) (s : schedule) :
  length (fst s) = Z.to_nat H -> length (snd s) = Z.to_nat H ->
  (- H <= remaining_life it)%Z ->
  exists s',
    place_item H s it = Some s'
    /\ length (fst s') = Z.to_nat H /\ length (snd s') = Z.to_nat H
    /\ (forall y o, In o (nth y (snd s) []) -> In o (nth y (snd s') []))
    /\ ((remaining_life it < 0)%Z ->
        In (make_occurrence it (remaining_life it) 0)
           (nth (Z.to_nat (H + remaining_life it)) (snd s') [])).
Proof.
  intros Hsp Hsd Hlow. unfold place_item.
  destruct (Z.geb_spec (remaining_life it) H) as [Hge|Hlt].
  - exists s. split; [reflexivity|]. split; [exact Hsp|]. split; [exact Hsd|].
    split; [auto|]. intros Hrl. lia.
  - set (n := if (redundancy it <=? 1)%Z then 1%Z
              else ((H - remaining_life it) / redundancy it + 1)%Z).
    assert (Hn : (1 <= n)%Z).
    { unfold n. destruct (Z.leb_spec (redundancy it) 1); [lia|].
      assert (0 <= (H - remaining_life it) / redundancy it)%Z
        by (apply Z.div_pos; lia).
      lia. }
    assert (Hoffs : forall i, In i (py_range n) ->
              (- H <= remaining_life it + i * redundancy it)%Z).
    { intros i Hi. apply in_py_range in Hi. unfold n in Hi.
      destruct (Z.leb_spec (redundancy it) 1); nia. }
    rewrite (py_range_pos n Hn) in *. cbn [for_each].
    destruct (place_occurrence_wraps H it s 0 Hsp Hsd)
      as (s1 & Hs1 & Hsp1 & Hsd1 & Hmono1 & Hfirst); [apply Hoffs; now left|].
    rewrite Hs1. cbn [bind].
    destruct (for_each_total
                (fun s' : schedule =>
                   length (fst s') = Z.to_nat H /\ length (snd s') = Z.to_nat H
                   /\ forall y o, In o (nth y (snd s1) []) -> In o (nth y (snd s') []))
                (place_occurrence H it)
                (map Z.of_nat (seq 1 (Z.to_nat n - 1))) s1)
      as (s' & Hrun & Hsp' & Hsd' & Hmono').
    + intros s2 i Hi (Hsp2 & Hsd2 & Hmono2).
      destruct (place_occurrence_wraps H it s2 i Hsp2 Hsd2)
        as (s3 & Hs3 & Hsp3 & Hsd3 & Hmono3 & _); [apply Hoffs; now right|].
      exists s3. split; [exact Hs3|]. split; [exact Hsp3|]. split; [exact Hsd3|].
      intros y o Ho. apply Hmono3, Hmono2, Ho.
    + split; [exact Hsp1|]. split; [exact Hsd1|]. auto.
    + exists s'. split; [exact Hrun|]. split; [exact Hsp'|]. split; [exact Hsd'|].
      split.
      * intros y o Ho. apply Hmono', Hmono1, Ho.
      * intros Hrl. apply Hmono', Hfirst; [reflexivity | exact Hrl].
Qed.

Lemma scheduler_wraps (H : Z) (items : list item) :
  forall s : schedule,
  length (fst s) = Z.to_nat H -> length (snd s) = Z.to_nat H ->
  (forall it, In it items -> (- H <= remaining_life it)%Z) ->
  exists s',
    for_each (place_item H) items s = Some s'
    /\ (forall y o, In o (nth y (snd s) []) -> In o (nth y (snd s') []))
    /\ (forall it, In it items -> (remaining_life it < 0)%Z ->
        In (make_occurrence it (remaining_life it) 0)
           (nth (Z.to_nat (H + remaining_life it)) (snd s') [])).
Proof.
  induction items as [|it items IH]; intros s Hsp Hsd Hlow.
  - exists s. split; [reflexivity|]. split; [auto|]. intros it [].
  - destruct (place_item_wraps H it s Hsp Hsd)
      as (s1 & Hs1 & Hsp1 & Hsd1 & Hmono1 & Hfirst); [apply Hlow; now left|].
    destruct (IH s1 Hsp1 Hsd1) as (s' & Hrun & Hmono' & Hall);
      [intros it' Hin; apply Hlow; now right|].
    exists s'. cbn [for_each]. rewrite Hs1. cbn [bind].
    split; [exact Hrun|]. split.
    + intros y o Ho. apply Hmono', Hmono1, Ho.
    + intros it' [<-|Hin] Hrl; [apply Hmono', Hfirst, Hrl | apply Hall; assumption].
Qed.

(** X4.  For a horizon [H >= 0], a catalog that holds an item whose
    first offset is below [-H] makes the scheduler raise: the subscript
    of the year arrays is out of range on both sides.  A catalog whose
    first offsets are all at least [-H] does not: the scheduler returns,
    and the first occurrence of every item with a negative offset [f] is
    counted from the end of the arrays, in the bucket of index [H + f]. *)
Theorem X4_early_item_raises (items : list item) (H start_year : Z) :
  (0 <= H)%Z ->
  (forall it, In it items -> (remaining_life it < - H)%Z ->
     calculate_yearly_expenses items H start_year = None)
  /\ ((forall it, In it items -> (- H <= remaining_life it)%Z) ->
      exists s,
        calculate_yearly_expenses items H start_year = Some s
        /\ forall it, In it items -> (remaining_life it < 0)%Z ->
             In (make_occurrence it (remaining_life it) 0)
                (nth (Z.to_nat (H + remaining_life it)) (snd s) [])).
Proof.
  intros HH. split.
  - intros it Hin Hrl. apply in_split in Hin as (l1 & l2 & ->).
    unfold calculate_yearly_expenses. rewrite for_each_app.
    destruct (for_each (place_item H) l1
                (repeat 0 (Z.to_nat H), repeat [] (Z.to_nat H)))
      as [[sp sd]|] eqn:E; [|reflexivity].
    apply (scheduler_lengths l1 H start_year) in E as [Hsp _].
    cbn [bind for_each]. now rewrite place_item_early_raises.
  - intros Hlow. unfold calculate_yearly_expenses.
    destruct (scheduler_wraps H items
                (repeat 0 (Z.to_nat H), repeat [] (Z.to_nat H)))
      as (s' & Hrun & _ & Hall); cbn [fst snd]; try apply repeat_length; auto.
    exists s'. auto.
Qed.

Lemma X4_early_item_raises_witness :
  calculate_yearly_expenses (default_items ++ [early_item]) 30 2022 = None
  /\ exists s,
       calculate_yearly_expenses
         [ {| name := "Boiler"; redundancy := 10; remaining_life := -1;
              cost := 9000; is_sirs := None; type := None |} ] 3 2022 = Some s
       /\ In {| o_name := "Boiler"; o_cost := 9000; o_year := -1;
                o_redundancy_at := 0; o_type := "Small"; o_is_sirs := false |}
             (nth 2 (snd s) []).
Proof.
  split.
  - apply (proj1 (X4_early_item_raises (default_items ++ [early_item]) 30 2022
                    ltac:(lia)) early_item).
    + apply in_or_app. right. left. reflexivity.
    + simpl. lia.
  - destruct (proj2 (X4_early_item_raises
                       [ {| name := "Boiler"; redundancy := 10; remaining_life := -1;
                            cost := 9000; is_sirs := None; type := None |} ] 3 2022
                       ltac:(lia)))
      as (s & Hs & Hin).
    + intros it [<-|[]]. simpl. lia.
    + exists s. split; [exact Hs|].
      apply (Hin _ (or_introl eq_refl)). simpl. lia.
Defined.

(** ** Expenses of a year *)

(** X6.  For a year outside the simulated window, before the fiscal
    year or at least [PERIOD] years after it, the outcome is that of the
    scheduler, which runs before the window is tested: every amount
    returned is 0 when the scheduler returns on the catalog, and the
    call raises when the scheduler raises. *)
Theorem X6_expenses_outside_window (cfg : config) (y housing : Z) :
  (y < FISCAL_YEAR cfg \/ FISCAL_YEAR cfg + PERIOD cfg <= y)%Z ->
  (forall s, cached_expenses cfg = Some s ->
     get_expenses_with_loan_details cfg y housing = Some (0, 0, 0, 0))
  /\ (cached_expenses cfg = None ->
      get_expenses_with_loan_details cfg y housing = None).
Proof.
  intros Hy. unfold get_expenses_with_loan_details. split.
  - intros [sp sd] Hcache. rewrite Hcache. cbn [bind].
    apply (scheduler_lengths (MODEL_ITEMS cfg) (PERIOD cfg) (FISCAL_YEAR cfg))
      in Hcache as [Hsp _].
    destruct ((0 <=? y - FISCAL_YEAR cfg)%Z
              && (y - FISCAL_YEAR cfg <? Z.of_nat (length sp))%Z) eqn:E;
      [|reflexivity].
    apply andb_true_iff in E as [E1 E2].
    apply Z.leb_le in E1. apply Z.ltb_lt in E2. lia.
  - intros ->. reflexivity.
Qed.

Lemma X6_expenses_outside_window_witness :
  get_expenses_with_loan_details short_plan 2024 1 = Some (0, 0, 0, 0)
  /\ get_expenses_with_loan_details short_plan 2021 1 = Some (0, 0, 0, 0)
  /\ get_expenses_with_loan_details
       early_plan 2030 1 = None.
Proof.
  split; [|split].
  - eapply (proj1 (X6_expenses_outside_window short_plan 2024 1
                     ltac:(right; simpl; lia))).
    vm_compute. reflexivity.
  - eapply (proj1 (X6_expenses_outside_window short_plan 2021 1
                     ltac:(left; simpl; lia))).
    vm_compute. reflexivity.
  - apply (proj2 (X6_expenses_outside_window early_plan 2030 1
                    ltac:(right; simpl; lia))).
    vm_compute. reflexivity.
Defined.

(** X7.  An item that carries no ['type'] key is scheduled as ["Small"]:
    its inflated cost goes to the total and to the cash portion, and
    neither to the large expenses nor to the financed portion. *)
Theorem X7_untyped_item_is_cash (cfg : config) (it : item)
  (occurrence_year i year_index : Z) (te le lp cp : Q) :
  type it = None ->
  add_expense cfg year_index (te, le, lp, cp) (make_occurrence it occurrence_year i)
  = (te + cost it * (1 + INFLATION_RATE cfg / 100) ^ year_index, le, lp,
     cp + cost it * (1 + INFLATION_RATE cfg / 100) ^ year_index).
Proof.
  intros Htype. unfold add_expense, make_occurrence. cbn [o_type o_cost].
  rewrite Htype. reflexivity.
Qed.

Lemma X7_untyped_item_is_cash_witness :
  add_expense short_plan 1 (0, 0, 0, 0) (make_occurrence untyped_item 1 0)
  = (0 + 1200 * (1 + 5 / 100) ^ 1, 0, 0, 0 + 1200 * (1 + 5 / 100) ^ 1).
Proof.
  apply (X7_untyped_item_is_cash short_plan untyped_item 1 0 1 0 0 0 0).
  reflexivity.
Defined.

(** ** Summary of a run *)

Lemma least_closing_step (m : amount) (data : list year_record) (r : year_record) :
  least_closing m data ->
  least_closing (amount_min m (closing_balance r)) (data ++ [r]).
Proof.
  destruct m as [q|]; simpl.
  - intros [(r0 & Hr0 & Hq) Hmin].
    destruct (Qltb (closing_balance r) q) eqn:E; simpl.
    + apply Qltb_lt in E. split.
      * exists r. split; [apply in_or_app; right; now left | reflexivity].
      * intros r' Hr'. apply in_app_or in Hr' as [Hr'|[<-|[]]]; [|lra].
        specialize (Hmin r' Hr'). lra.
    + apply Qltb_ge in E. split.
      * exists r0. split; [apply in_or_app; now left | exact Hq].
      * intros r' Hr'. apply in_app_or in Hr' as [Hr'|[<-|[]]]; auto.
  - intros ->. simpl. split.
    + exists r. split; [now left | reflexivity].
    + intros r' [<-|[]]. lra.
Qed.

Lemma deficit_step (cfg : config) (r : year_record) (td : Q) :
  (if Qltb (closing_balance r) (MIN_RESERVE_BALANCE cfg)
   then td + Qabs (closing_balance r - MIN_RESERVE_BALANCE cfg)
   else td)
  == td + shortfall cfg r.
Proof.
  unfold shortfall.
  destruct (Qltb (closing_balance r) (MIN_RESERVE_BALANCE cfg)) eqn:E.
  - apply Qltb_lt in E. rewrite Qabs_neg by lra. rewrite Q.max_r by lra. ring.
  - apply Qltb_ge in E. rewrite Q.max_l by lra. ring.
Qed.

Lemma simulate_years_summary (cfg : config) (fee : Q) (fut : list (Z * (Q * Q)))
  (s : sim_state) :
  simulate_years cfg fee fut (simulation_years cfg) initial_state = Some s ->
  least_closing (min_balance s) (simulation_data s)
  /\ total_deficits s == Qsum (map (shortfall cfg) (simulation_data s))
  /\ active_loans s = flat_map (loan_of_record cfg) (simulation_data s).
Proof.
  unfold simulate_years. rewrite simulation_years_seq.
  apply for_each_range_invariant
    with (I := fun (_ : nat) s =>
       least_closing (min_balance s) (simulation_data s)
       /\ total_deficits s == Qsum (map (shortfall cfg) (simulation_data s))
       /\ active_loans s = flat_map (loan_of_record cfg) (simulation_data s)).
  - simpl. repeat split; reflexivity.
  - intros j s0 s1 _ (Hmin & Htd & Hloans) Hstep.
    apply simulate_year_inv in Hstep
      as (r & Hd & Hy & _ & _ & Hled & _ & _ & Hmb & Hdef).
    rewrite Hd, Hmb, Hdef, Hled. split; [|split].
    + now apply least_closing_step.
    + rewrite deficit_step, map_app, Qsum_app, Htd. simpl. ring.
    + rewrite flat_map_app, Hloans. cbn [flat_map]. unfold loan_of_record.
      rewrite Hy, app_nil_r.
      destruct (Qltb 0 (loan_portion r)); [reflexivity | now rewrite app_nil_r].
Qed.



(** X9.  The total of deficits a run reports is the sum, over its
    records, of the amount by which the closing balance falls short of
    the minimum reserve balance; it is never negative. *)
Theorem X9_total_deficits (cfg : config) (fee : option Q)
  (data : list year_record) (mb : amount) (td : Q) :
  simulate_with_monthly_fees cfg fee = Some (data, mb, td) ->
  td == Qsum (map (fun r => Qmax 0 (MIN_RESERVE_BALANCE cfg - closing_balance r)) data)
  /\ 0 <= td.
Proof.
  intros Hrun. apply simulate_inv in Hrun as (fut & s & _ & Hs & -> & _ & ->).
  destruct (simulate_years_summary _ _ _ _ Hs) as (_ & Htd & _).
  split; [exact Htd|]. rewrite Htd.
  clear Htd. induction (simulation_data s) as [|r l IH];
    cbn [map Qsum fold_right]; [lra|].
  pose proof (Q.le_max_l 0 (MIN_RESERVE_BALANCE cfg - closing_balance r)) as Hr.
  fold (shortfall cfg r) in Hr. fold (Qsum (map (shortfall cfg) l)). lra.
Qed.

Lemma X9_total_deficits_witness :
  exists data mb td,
    simulate_with_monthly_fees unreachable_floor None = Some (data, mb, td)
    /\ td == 976
    /\ td == Qsum (map (fun r => Qmax 0 (MIN_RESERVE_BALANCE unreachable_floor
                                         - closing_balance r)) data).
Proof.
  eexists. eexists. eexists. split; [vm_compute; reflexivity|].
  split; [reflexivity|].
  eapply (X9_total_deficits unreachable_floor None). vm_compute. reflexivity.
Defined.

(** X10.  A loan is opened in exactly the years whose financed portion
    is positive: the ledger a run ends with lists, in order of years, one
    loan per such record, with that portion as principal, the year of the
    record as start and the configured term. *)
Theorem X10_ledger_of_run (cfg : config) (fee : option Q)
  (data : list year_record) (mb : amount) (td : Q) :
  simulate_with_monthly_fees cfg fee = Some (data, mb, td) ->
  exists fut s,
    simulate_years cfg (effective_fee cfg fee) fut (simulation_years cfg)
      initial_state = Some s
    /\ data = simulation_data s
    /\ active_loans s
       = flat_map
           (fun r => if Qltb 0 (loan_portion r)
                     then [ {| principal := loan_portion r; start_year := year r;
                               term := LOAN_TERM_YEARS_MODEL cfg |} ]
                     else [])
           data.
Proof.
  intros Hrun. apply simulate_inv in Hrun as (fut & s & _ & Hs & -> & _ & _).
  exists fut, s. split; [exact Hs|]. split; [reflexivity|].
  apply (simulate_years_summary _ _ _ _ Hs).
Qed.

Lemma X10_ledger_of_run_witness :
  exists fut s,
    simulate_years short_plan (effective_fee short_plan None) fut
      (simulation_years short_plan) initial_state = Some s
    /\ short_plan_data = simulation_data s
    /\ map start_year (active_loans s) = [2023%Z].
Proof.
  destruct (X10_ledger_of_run short_plan None _ _ _ short_plan_returns)
    as (fut & s & Hs & Hd & Hloans).
  exists fut, s. split; [exact Hs|]. split; [exact Hd|].
  rewrite Hloans. reflexivity.
Defined.

Lemma map_year_range (a : Z) (l : list year_record) :
  forall b,
  (forall j r, nth_error l j = Some r -> year r = (a + Z.of_nat (b + j))%Z) ->
  map year l = map (fun j => (a + Z.of_nat j)%Z) (seq b (length l)).
Proof.
  induction l as [|r l IH]; intros b Hl; [reflexivity|].
  cbn [map length seq]. f_equal.
  - rewrite (Hl O r eq_refl). f_equal. f_equal. lia.
  - apply IH. intros j r' Hj. rewrite (Hl (S j) r' Hj). f_equal. f_equal. lia.
Qed.

(** X11.  A run has one record per simulated year, in order: the years
    of its records are the fiscal year and the [PERIOD - 1] following
    ones.  With a horizon of 0 or less it returns no record, the minimum
    [inf] and no deficit, without reading the catalog. *)
Theorem X11_one_record_per_year (cfg : config) (fee : option Q) :
  ((PERIOD cfg <= 0)%Z ->
     simulate_with_monthly_fees cfg fee = Some ([], Inf, 0))
  /\ (forall data mb td,
        simulate_with_monthly_fees cfg fee = Some (data, mb, td) ->
        map year data = simulation_years cfg).
Proof.
  split.
  - intros HP.
    unfold simulate_with_monthly_fees, precalculate_future_expenses, simulate_years.
    rewrite simulation_years_seq. replace (Z.to_nat (PERIOD cfg)) with O by lia.
    reflexivity.
  - intros data mb td Hrun.
    apply simulate_records in Hrun as (fut & s & _ & _ & -> & _ & _ & Hinv).
    rewrite simulation_years_seq, <- (inv_length _ _ _ _ _ Hinv).
    apply map_year_range. intros j r Hj.
    apply (rec_year _ _ _ _ _ _ (inv_records _ _ _ _ _ Hinv _ _ Hj)).
Qed.

Lemma X11_one_record_per_year_witness :
  map year short_plan_data = [2022; 2023]%Z
  /\ simulate_with_monthly_fees no_horizon (Some 7) = Some ([], Inf, 0).
Proof.
  split.
  - apply (proj2 (X11_one_record_per_year short_plan None)
             _ _ _ short_plan_returns).
  - apply (proj1 (X11_one_record_per_year no_horizon (Some 7))). simpl. lia.
Defined.

(** ** What the fee does not change *)

Lemma schedule_fields_step (cfg : config) (F F' : Q) (fut : list (Z * (Q * Q)))
  (s t s1 t1 : sim_state) (y : Z) :
  active_loans s = active_loans t
  /\ Forall2 same_schedule_fields (simulation_data s) (simulation_data t) ->
  simulate_year cfg F fut s y = Some s1 ->
  simulate_year cfg F' fut t y = Some t1 ->
  active_loans s1 = active_loans t1
  /\ Forall2 same_schedule_fields (simulation_data s1) (simulation_data t1).
Proof.
  intros (Hloans & Hdata) Hs Ht.
  apply simulate_year_inv in Hs
    as (r & Hd & Hy & Hok & _ & Hled & Hpay & Hcount & _).
  apply simulate_year_inv in Ht
    as (r' & Hd' & Hy' & Hok' & _ & Hled' & Hpay' & Hcount' & _).
  pose proof (ok_expenses _ _ _ _ Hok) as He.
  pose proof (ok_expenses _ _ _ _ Hok') as He'.
  rewrite Hy in He. rewrite Hy', He in He'.
  injection He' as Hfe Hle Hlp Hcp.
  assert (Hledger : active_loans s1 = active_loans t1).
  { rewrite Hled, Hled', <- Hlp, Hloans. reflexivity. }
  split; [exact Hledger|].
  rewrite Hd, Hd'. apply Forall2_app; [exact Hdata|].
  constructor; [|constructor].
  assert (Hrc : reserve_contribution r = reserve_contribution r').
  { rewrite (ok_reserve _ _ _ _ Hok), (ok_reserve _ _ _ _ Hok'), Hy, Hy'.
    reflexivity. }
  assert (Hlr : loan_repayments r = loan_repayments r').
  { rewrite Hledger, Hpay' in Hpay. now injection Hpay. }
  unfold same_schedule_fields. repeat split; congruence.
Qed.

(** X12.  Two runs on the same inputs at different fees produce, year
    by year, the same expenses (total, large, financed and cash
    portions), the same reserve contribution, the same loan repayments
    and the same count of active loans: the fee reaches only the base
    maintenance, the safety net and the balances. *)
Theorem X12_fee_independent_fields (cfg : config) (fee fee' : option Q)
  (data data' : list year_record) (mb mb' : amount) (td td' : Q) :
  simulate_with_monthly_fees cfg fee = Some (data, mb, td) ->
  simulate_with_monthly_fees cfg fee' = Some (data', mb', td') ->
  Forall2 same_schedule_fields data data'.
Proof.
  intros Hres Hres'.
  apply simulate_inv in Hres as (fut & s & Hfut & Hs & -> & _ & _).
  apply simulate_inv in Hres' as (fut' & t & Hfut' & Ht & -> & _ & _).
  rewrite Hfut in Hfut'. injection Hfut' as <-.
  unfold simulate_years in Hs, Ht. rewrite simulation_years_seq in Hs, Ht.
  pose proof (for_each_range_related
           (simulate_year cfg (effective_fee cfg fee) fut)
           (simulate_year cfg (effective_fee cfg fee') fut)
           (FISCAL_YEAR cfg)
           (fun _ s t =>
              active_loans s = active_loans t
              /\ Forall2 same_schedule_fields (simulation_data s) (simulation_data t))
           (Z.to_nat (PERIOD cfg)) initial_state s initial_state t) as Hrel.
  apply Hrel; [split; [reflexivity | constructor] | | exact Hs | exact Ht].
  intros j s0 t0 s1 t1 _. apply schedule_fields_step.
Qed.

Lemma X12_fee_independent_fields_witness :
  exists data mb td,
    simulate_with_monthly_fees short_plan (Some 500) = Some (data, mb, td)
    /\ Forall2 same_schedule_fields short_plan_data data.
Proof.
  eexists. eexists. eexists. split; [vm_compute; reflexivity|].
  eapply (X12_fee_independent_fields short_plan None (Some 500)).
  - exact short_plan_returns.
  - vm_compute. reflexivity.
Defined.

(** ** Reserve contribution over a run *)






(** ** The optimizer: bracket and report *)





(** X17.  With the optimization enabled and a baseline fee of 0 that is
    not feasible, the optimizer does not return: after the search its
    report divides the optimized fee by the baseline fee. *)
Theorem X17_zero_baseline_raises (cfg : config) :
  OPTIMIZE_MONTHLY_FEES cfg = true ->
  MONTHLY_FEES cfg == 0 ->
  ~ feasible cfg (MONTHLY_FEES cfg) ->
  optimize_monthly_fees cfg = None.
Proof.
  intros Hflag HF Hinf. unfold optimize_monthly_fees. rewrite Hflag. cbn [negb].
  destruct (simulate_with_monthly_fees cfg (Some (MONTHLY_FEES cfg)))
    as [[[data mb] td]|] eqn:Hsim; [|reflexivity].
  cbn [bind]. destruct (sufficient cfg mb td) eqn:Hsuff.
  { exfalso. apply Hinf. exists data, mb, td. auto. }
  destruct (binary_search cfg max_iterations 0 (MONTHLY_FEES cfg * 0.5)
              (MONTHLY_FEES cfg * 3.0)) as [[[lo ub] it]|]; [|reflexivity].
  cbn [bind].
  destruct (simulate_with_monthly_fees cfg (Some ub)); [|reflexivity].
  cbn [bind]. unfold py_div. rewrite (Qeq_eq_bool _ _ HF). reflexivity.
Qed.

Lemma X17_zero_baseline_raises_witness :
  optimize_monthly_fees zero_fee_floor = None.
Proof.
  apply (X17_zero_baseline_raises zero_fee_floor).
  - reflexivity.
  - reflexivity.
  - intros (data & mb & td & Hsim & Hsuff).
    vm_compute in Hsim. injection Hsim as <- <- <-.
    vm_compute in Hsuff. discriminate.
Defined.

(** X19.  With a term of 0 years, a principal and a rate both different
    from 0 make the amortizer raise: the denominator [(1+i)^0 - 1] of the
    payment is 0. *)
Theorem X19_zero_term_raises (P rate : Q) :
  ~ P == 0 -> ~ rate == 0 ->
  calculate_monthly_loan_payment P rate 0 = None
  /\ get_loan_payments P rate 0 = None.
Proof.
  intros HP Hr.
  assert (Hm : calculate_monthly_loan_payment P rate 0 = None).
  { unfold calculate_monthly_loan_payment.
    rewrite (Qeq_bool_false P 0), (Qeq_bool_false rate 0) by assumption.
    cbn [orb]. unfold py_pow. cbn [Z.mul Z.ltb Z.compare].
    rewrite andb_false_r. reflexivity. }
  split; [exact Hm|]. unfold get_loan_payments. rewrite Hm. reflexivity.
Qed.

Lemma X19_zero_term_raises_witness :
  calculate_monthly_loan_payment 36750 10 0 = None
  /\ get_loan_payments 36750 10 0 = None.
Proof.
  apply (X19_zero_term_raises 36750 10); discriminate.
Defined.
(** * Properties of the workbook on doubles *)

Set Warnings "-inexact-float".

Import PrimFloat SpecFloat.

Local Open Scope float_scope.

(** ** The order of binary64 *)










(** ** Comparisons and the power operator *)



(** [1.0 ** n] is 1 for every integer [n], without a call to the
    library. *)
Lemma float_pow_one (libm_pow : float -> float -> float) (n : Z) :
  Float64.py_pow libm_pow 1 n = Some 1.
Proof. destruct n; reflexivity. Qed.

(** ** The loan amortizer on doubles *)

Lemma float_payment_zero (libm_pow : float -> float -> float)
  (P rate : float) (t : Z) :
  (P =? 0) || (rate =? 0) = true ->
  Float64.calculate_monthly_loan_payment libm_pow P rate t = Some 0.
Proof.
  intros E. unfold Float64.calculate_monthly_loan_payment. now rewrite E.
Qed.

Lemma float_payment_formula (libm_pow : float -> float -> float)
  (P rate : float) (t : Z) :
  (P =? 0) || (rate =? 0) = false ->
  Float64.calculate_monthly_loan_payment libm_pow P rate t
  = match Float64.py_pow libm_pow (1 + rate / 100 / 12) (t * 12) with
    | None => None
    | Some g =>
        if g - 1 =? 0 then None
        else Some (P * (rate / 100 / 12) * g / (g - 1))
    end.
Proof.
  intros E. unfold Float64.calculate_monthly_loan_payment. rewrite E.
  destruct (Float64.py_pow libm_pow (1 + rate / 100 / 12) (t * 12)); reflexivity.
Qed.

(** C5 (amended).  On doubles the monthly payment is 0 whenever the
    principal or the annual rate is 0.  Otherwise, with [i = rate/100/12]
    and [g] the double the interpreter gives for [(1 + i) ** (term * 12)],
    the function returns [P * i * g / (g - 1)], every operation rounded,
    provided the power does not overflow and [g - 1] is not 0; it raises
    when the power overflows and when [g - 1] is 0, which is the case at
    term 0 and whenever [1 + i] rounds to 1.  The annual payment is the
    monthly payment times 12, and raises when the monthly payment
    does. *)
Theorem C5_loan_payment (libm_pow : float -> float -> float)
  (P rate : float) (t : Z) :
  ((P =? 0) || (rate =? 0) = true ->
     Float64.calculate_monthly_loan_payment libm_pow P rate t = Some 0)
  /\ ((P =? 0) || (rate =? 0) = false ->
      (forall g,
         Float64.py_pow libm_pow (1 + rate / 100 / 12) (t * 12) = Some g ->
         (g - 1 =? 0) = false ->
         Float64.calculate_monthly_loan_payment libm_pow P rate t
         = Some (P * (rate / 100 / 12) * g / (g - 1)))
      /\ (forall g,
            Float64.py_pow libm_pow (1 + rate / 100 / 12) (t * 12) = Some g ->
            (g - 1 =? 0) = true ->
            Float64.calculate_monthly_loan_payment libm_pow P rate t = None)
      /\ (Float64.py_pow libm_pow (1 + rate / 100 / 12) (t * 12) = None ->
          Float64.calculate_monthly_loan_payment libm_pow P rate t = None)
      /\ (t = 0%Z ->
          Float64.calculate_monthly_loan_payment libm_pow P rate t = None)
      /\ (1 + rate / 100 / 12 = 1 ->
          Float64.calculate_monthly_loan_payment libm_pow P rate t = None))
  /\ Float64.get_loan_payments libm_pow P rate t
     = match Float64.calculate_monthly_loan_payment libm_pow P rate t with
       | Some monthly_payment => Some (monthly_payment * 12)
       | None => None
       end.
Proof.
  split; [apply float_payment_zero|]. split; [|reflexivity].
  intros E. rewrite (float_payment_formula libm_pow P rate t E).
  split; [|split; [|split; [|split]]].
  - intros g -> ->. reflexivity.
  - intros g -> ->. reflexivity.
  - intros ->. reflexivity.
  - intros ->. reflexivity.
  - intros ->. rewrite float_pow_one. reflexivity.
Qed.

(** The zero rate, the term 0 and the rate [2^-50] with a library that
    is never called; the formula with a library that answers
    1.6453089347785854 for [1.0083333333333333 ** 60]. *)
Lemma C5_loan_payment_witness :
  Float64.calculate_monthly_loan_payment Float64.libm_unreached 1000 0 5 = Some 0
  /\ Float64.calculate_monthly_loan_payment Float64.libm_unreached 1000 10 0 = None
  /\ Float64.calculate_monthly_loan_payment Float64.libm_unreached 1000 0x1p-50 5
     = None
  /\ Float64.calculate_monthly_loan_payment (fun _ _ => 0x1.a5186d9ae7266p+0)
       1000 10 5
     = Some (1000 * (10 / 100 / 12) * 0x1.a5186d9ae7266p+0
             / (0x1.a5186d9ae7266p+0 - 1)).
Proof.
  split; [|split; [|split]].
  - apply (proj1 (C5_loan_payment Float64.libm_unreached 1000 0 5)). reflexivity.
  - destruct (proj1 (proj2 (C5_loan_payment Float64.libm_unreached 1000 10 0))
                eq_refl) as (_ & _ & _ & Hterm & _).
    apply Hterm. reflexivity.
  - destruct (proj1 (proj2 (C5_loan_payment Float64.libm_unreached 1000 0x1p-50 5))
                eq_refl) as (_ & _ & _ & _ & Hone).
    apply Hone. reflexivity.
  - destruct (proj1 (proj2 (C5_loan_payment (fun _ _ => 0x1.a5186d9ae7266p+0)
                              1000 10 5)) eq_refl) as (Hformula & _).
    apply Hformula; reflexivity.
Defined.

(** A payment is not returned for every positive input: at term 0, and
    at the positive rate [2^-50], for which [1 + i] rounds to 1, the
    divisor is 0 and the call raises, whatever the library; at rate 1200
    and term 100 the power is [2^1200], and the call raises as soon as
    the library reports the overflow. *)
Lemma C5_positive_inputs_counterexample :
  ((0 <? 1000) = true /\ (0 <? 10) = true /\ (0 <? 0x1p-50) = true
   /\ (0 <? 1200) = true)
  /\ (forall libm, Float64.calculate_monthly_loan_payment libm 1000 10 0 = None)
  /\ (forall libm, Float64.calculate_monthly_loan_payment libm 1000 0x1p-50 5 = None)
  /\ (forall libm, is_infinity (libm 2 1200) = true ->
        Float64.calculate_monthly_loan_payment libm 1000 1200 100 = None).
Proof.
  split; [repeat split|]. split; [|split].
  - intros libm. reflexivity.
  - intros libm. reflexivity.
  - intros libm Hinf.
    rewrite float_payment_formula by reflexivity.
    assert (E : Float64.py_pow libm (1 + 1200 / 100 / 12) (100 * 12)
                = if is_infinity (libm 2 1200) then None else Some (libm 2 1200))
      by reflexivity.
    rewrite E, Hinf. reflexivity.
Qed.

(** ** One simulated year on doubles *)











(** ** Monotonicity in the fee, and rounding *)




(** ** Closing balances and deficits, and rounding *)




(** ** The fee optimizer on doubles *)

Lemma float_binary_search_spec (libm_pow : float -> float -> float)
  (cfg : Float64.config) (remaining : nat) :
  forall (iteration : Z) (lo hi lo' hi' : float) (iteration' : Z),
  Float64.binary_search libm_pow cfg remaining iteration lo hi
  = Some (lo', hi', iteration') ->
  (iteration <= iteration' <= iteration + Z.of_nat remaining)%Z
  /\ (iteration' = (iteration + Z.of_nat remaining)%Z
      \/ (1 <? hi' - lo') = false)
  /\ (hi' = hi \/ Float64.feasible libm_pow cfg hi')
  /\ (lo' = lo \/ Float64.rejected libm_pow cfg lo').
Proof.
  induction remaining as [|n IH]; intros it lo hi lo' hi' it' Hrun;
    cbn [Float64.binary_search] in Hrun.
  - injection Hrun as <- <- <-. split; [lia|]. split; [left; lia|]. auto.
  - destruct (1 <? hi - lo) eqn:Hwidth.
    + apply bind_Some in Hrun as ([[data mb] td] & Hsim & Hrun).
      cbv beta iota zeta in Hrun.
      destruct (Float64.sufficient cfg mb td) eqn:Hsuf;
        apply IH in Hrun as (Hit & Hstop & Hhi & Hlo).
      * split; [lia|]. split; [destruct Hstop; [left; lia | now right]|].
        split; [|exact Hlo].
        right. destruct Hhi as [->|Hhi]; [|exact Hhi].
        exists data, mb, td. auto.
      * split; [lia|]. split; [destruct Hstop; [left; lia | now right]|].
        split; [exact Hhi|].
        right. destruct Hlo as [->|Hlo]; [|exact Hlo].
        exists data, mb, td. auto.
    + injection Hrun as <- <- <-. split; [lia|]. split; [now right|]. auto.
Qed.

(** C3 (amended).  On doubles, with the optimizer switched on: when the
    run at the baseline fee [F0] passes the feasibility test the
    optimizer returns [F0] unchanged.  Otherwise what it returns is the
    upper bound left by the bisection of the bracket [0.5*F0, 3.0*F0]:
    the bisection makes at most 20 iterations and stops before the 20th
    only when the width of the bracket is no longer above 1.0 (a width
    of exactly 1.0 stops it); the upper bound is the untested initial
    bound [3.0*F0] or a midpoint that passed the test, and the lower
    bound is the initial one or a midpoint that failed it. *)
Theorem C3_optimizer (libm_pow : float -> float -> float) (cfg : Float64.config) :
  Float64.OPTIMIZE_MONTHLY_FEES cfg = true ->
  (Float64.feasible libm_pow cfg (Float64.MONTHLY_FEES cfg) ->
   Float64.optimize_monthly_fees libm_pow cfg = Some (Float64.MONTHLY_FEES cfg))
  /\ (forall r,
        ~ Float64.feasible libm_pow cfg (Float64.MONTHLY_FEES cfg) ->
        Float64.optimize_monthly_fees libm_pow cfg = Some r ->
        exists lo iterations,
          Float64.binary_search libm_pow cfg 20 0
            (Float64.MONTHLY_FEES cfg * 0.5) (Float64.MONTHLY_FEES cfg * 3)
          = Some (lo, r, iterations)
          /\ (0 <= iterations <= 20)%Z
          /\ (iterations = 20%Z \/ (1 <? r - lo) = false)
          /\ (r = Float64.MONTHLY_FEES cfg * 3 \/ Float64.feasible libm_pow cfg r)
          /\ (lo = Float64.MONTHLY_FEES cfg * 0.5
              \/ Float64.rejected libm_pow cfg lo)).
Proof.
  intros Hon. unfold Float64.optimize_monthly_fees. rewrite Hon. cbn [negb].
  split.
  - intros (data & mb & td & Hsim & Hsuf). rewrite Hsim. cbn [bind].
    cbv beta iota zeta. now rewrite Hsuf.
  - intros r Hnot Hrun.
    apply bind_Some in Hrun as ([[data mb] td] & Hsim & Hrun).
    cbv beta iota zeta in Hrun.
    destruct (Float64.sufficient cfg mb td) eqn:Hsuf.
    { exfalso. apply Hnot. exists data, mb, td. auto. }
    apply bind_Some in Hrun as ([[lo hi] it] & Hsearch & Hrun).
    cbv beta iota zeta in Hrun.
    apply bind_Some in Hrun as (final & _ & Hrun).
    apply bind_Some in Hrun as (ratio & _ & [= <-]).
    exists lo, it. split; [exact Hsearch|].
    apply float_binary_search_spec in Hsearch as (Hit & Hstop & Hhi & Hlo).
    split; [lia|]. split; [exact Hstop|]. split; [exact Hhi | exact Hlo].
Qed.

Lemma C3_optimizer_witness :
  Float64.optimize_monthly_fees Float64.libm_unreached
    (Float64.one_year 20 900.07 10 0) = Some 20
  /\ exists lo iterations,
       Float64.binary_search Float64.libm_unreached
         (Float64.one_year 2 0 10 1000) 20 0 (2 * 0.5) (2 * 3)
       = Some (lo, 6, iterations)
       /\ (0 <= iterations <= 20)%Z
       /\ (iterations = 20%Z \/ (1 <? 6 - lo) = false)
       /\ (lo = 2 * 0.5
           \/ Float64.rejected Float64.libm_unreached
                (Float64.one_year 2 0 10 1000) lo).
Proof.
  split.
  - apply (proj1 (C3_optimizer Float64.libm_unreached
                    (Float64.one_year 20 900.07 10 0) eq_refl)).
    do 3 eexists. split; [vm_compute; reflexivity | reflexivity].
  - destruct (proj2 (C3_optimizer Float64.libm_unreached
                       (Float64.one_year 2 0 10 1000) eq_refl) 6)
      as (lo & it & Hsearch & Hit & Hstop & _ & Hlo).
    + intros (data & mb & td & Hsim & Hsuf).
      vm_compute in Hsim. injection Hsim as <- <- <-. discriminate Hsuf.
    + vm_compute. reflexivity.
    + exists lo, it. auto.
Defined.

(** The returned bound need not be feasible, and the search does not
    wait for a width below 1.0.  With [unreachable_floor] (fee 2, floor
    1000, one year) no fee of the bracket [[1, 6]] is feasible: the
    midpoints fail the test and the optimizer returns the untested bound
    6, at which the year closes at 72, below the floor; the same on
    doubles.  At a baseline fee of 1.6 and a floor out of reach the
    bracket is cut from 4 to 2 to 1, and the search stops after 2
    iterations at a width of exactly 1.0. *)
Lemma C3_infeasible_result_counterexample :
  (exists r data mb td,
     optimize_monthly_fees unreachable_floor = Some r
     /\ (r == 6)%Q
     /\ simulate_with_monthly_fees unreachable_floor (Some r) = Some (data, mb, td)
     /\ sufficient unreachable_floor mb td = false)
  /\ (forall libm,
        Float64.optimize_monthly_fees libm (Float64.one_year 2 0 10 1000) = Some 6
        /\ Float64.rejected libm (Float64.one_year 2 0 10 1000) 6)
  /\ (exists lo hi,
        (forall libm,
           Float64.binary_search libm (Float64.one_year 1.6 0 10 1e12) 20 0
             (1.6 * 0.5) (1.6 * 3) = Some (lo, hi, 2%Z))
        /\ hi - lo = 1
        /\ (hi - lo <? 1) = false).
Proof.
  split; [|split].
  - eexists. eexists. eexists. eexists.
    split; [vm_compute; reflexivity|].
    split; [reflexivity|].
    split; [vm_compute; reflexivity|].
    vm_compute. reflexivity.
  - intros libm. split; [vm_compute; reflexivity|].
    do 3 eexists. split; [vm_compute; reflexivity | reflexivity].
  - do 2 eexists. split; [|split].
    + intros libm. vm_compute. reflexivity.
    + reflexivity.
    + reflexivity.
Qed.
